(** * AcrossSdkDemo: the bridging script [src/sdk-app.ts]

    A shallow embedding of the one-shot bridging script and the proofs of
    the properties its specification states.

    The script talks to three outside parties: the console, the origin
    chain's RPC node (balance query) and the Across service (supported
    chains, quote, execution).  Its code is embedded as a program tree
    [prog] whose nodes are those calls; [run] plays a program against a
    [world] that answers them and returns the ordered list of calls made
    together with the outcome (a value or an uncaught exception).

    Library functions the script calls are modelled by what they compute:
    [formatEther] / [parseEther] (ethers v6 fixed-point printing and
    reading with 18 decimals), [Number] (ECMAScript StringToNumber, with
    IEEE 754 binary64 round-to-nearest-even), the comparison [<] on
    binary64 values, the truth value of a number under [||], viem's
    [privateKeyToAccount] (as far as it accepts or rejects a key) and
    [JSON.stringify] (as far as it returns a text or throws on a BigInt).
    The text [JSON.stringify] returns and the digits a number prints as
    are left open. *)

From Stdlib Require Import ZArith List String Ascii Bool Lia.
From Equations Require Import Equations.
Import ListNotations.
Local Open Scope Z_scope.

(** ** IEEE 754 binary64 values, as far as the script needs them *)

Module Float64.

(** [Fin s m e] is the number [(-1)^s * m * 2^e] with [0 <= m]. *)
Inductive t : Type :=
| NaN
| Inf (neg : bool)
| Fin (neg : bool) (m : Z) (e : Z).

(** [scale2 p q k] is a fraction equal to [(p/q) / 2^k], for [0 < q]. *)
Definition scale2 (p q k : Z) : Z * Z :=
  if 0 <=? k then (p, q * 2 ^ k) else (p * 2 ^ (- k), q).

(** [ge_pow2 p q k] decides [2^k <= p/q] for [0 < q]. *)
Definition ge_pow2 (p q k : Z) : bool :=
  let (n, d) := scale2 p q k in d <=? n.

(** [ilog2 p q] is the integer [e] with [2^e <= p/q < 2^(e+1)],
    for [0 < p] and [0 < q]. *)
Definition ilog2 (p q : Z) : Z :=
  let e0 := Z.log2 p - Z.log2 q in
  if ge_pow2 p q e0 then e0 else e0 - 1.

(** The integer nearest to [n/d], ties to the even one. *)
Definition rne (n d : Z) : Z :=
  let f := n / d in
  match 2 * (n mod d) ?= d with
  | Lt => f
  | Gt => f + 1
  | Eq => if Z.even f then f else f + 1
  end.

(** The binary64 value nearest to [p/q] ([0 <= p], [0 < q]), with sign
    [neg]: 53 bits of precision, least exponent -1074 (subnormals),
    overflow to infinity from [2^1024] on. *)
Definition round (neg : bool) (p q : Z) : t :=
  if p =? 0 then Fin neg 0 0
  else
    let e := ilog2 p q in
    let ex := Z.max (e - 52) (-1074) in
    let (n, d) := scale2 p q ex in
    let m := rne n d in
    if (0 <=? ex) && (2 ^ 1024 <=? m * 2 ^ ex) then Inf neg
    else Fin neg m ex.

Definition signed (neg : bool) (m : Z) : Z := if neg then - m else m.

(** The relational operator [x < y] on numbers: false as soon as one
    side is NaN. *)
Definition ltb (x y : t) : bool :=
  match x, y with
  | NaN, _ | _, NaN => false
  | Inf s1, Inf s2 => s1 && negb s2
  | Inf s, Fin _ _ _ => s
  | Fin _ _ _, Inf s => negb s
  | Fin s1 m1 e1, Fin s2 m2 e2 =>
      let e := Z.min e1 e2 in
      signed s1 m1 * 2 ^ (e1 - e) <? signed s2 m2 * 2 ^ (e2 - e)
  end.

(** A decimal literal [c * 10^x] of the program text, such as [0.01]. *)
Definition literal (c x : Z) : t :=
  if 0 <=? x then round false (c * 10 ^ x) 1 else round false c (10 ^ (- x)).

(** The program's least balance, [0.01], as a binary64 value. *)
Definition min_eth : t := Fin false 5764607523034235 (-59).

(** ToBoolean of a number: false for [+0], [-0] and [NaN] only. *)
Definition falsy (x : t) : bool :=
  match x with
  | NaN => true
  | Inf _ => false
  | Fin _ m _ => m =? 0
  end.

End Float64.

(** ** Exceptions

    A thrown JavaScript error, by the two fields every [Error] has. *)

Record exn : Type := Error { name : string; message : string }.

Definition TypeError (msg : string) : exn := Error "TypeError" msg.

Definition RangeError (msg : string) : exn := Error "RangeError" msg.

(** viem's [InsufficientFundsError], built without a cause. *)
Definition InsufficientFundsError : exn :=
  Error "InsufficientFundsError"
    "The total cost (gas * gas fee + value) of executing this transaction exceeds the balance of the account.".

(** Reading a property of [undefined]. *)
Definition undefined_read (prop : string) : exn :=
  TypeError ("Cannot read properties of undefined (reading '" ++ prop ++ "')").

(** ** Text of numbers: bigint printing, ethers' fixed-point format,
       ECMAScript's reading of a number

    Strings are handled as lists of characters inside this module and as
    [string] at its border. *)

Module Text.

Definition chars : Type := list ascii.

Definition is_digit (c : ascii) : bool :=
  let n := nat_of_ascii c in ((48 <=? n) && (n <=? 57))%nat.

Definition digit_val (c : ascii) : Z := Z.of_nat (nat_of_ascii c) - 48.

Definition digit_char (d : Z) : ascii := ascii_of_nat (Z.to_nat d + 48).

(** The decimal digits of [n >= 0], most significant first, pushed in
    front of [acc]. *)
Fixpoint digits_onto (fuel : nat) (n : Z) (acc : chars) : chars :=
  match fuel with
  | O => acc
  | S f =>
      let acc' := digit_char (n mod 10) :: acc in
      if n <? 10 then acc' else digits_onto f (n / 10) acc'
  end.

Definition digits (n : Z) : chars :=
  digits_onto (S (Z.to_nat (Z.log2 n))) n [].

(** [BigInt.prototype.toString()]. *)
Definition bigint_toString (n : Z) : chars :=
  if n <? 0 then "-"%char :: digits (- n) else digits n.

(** The value of a run of decimal digits. *)
Definition value (ds : chars) : Z :=
  fold_left (fun a c => 10 * a + digit_val c) ds 0.

Definition all_digits (ds : chars) : Prop :=
  Forall (fun c => is_digit c = true) ds.

(** The longest prefix of decimal digits, and what follows it. *)
Fixpoint span_digits (s : chars) : chars * chars :=
  match s with
  | c :: r =>
      if is_digit c then let (ds, rest) := span_digits r in (c :: ds, rest)
      else ([], s)
  | [] => ([], [])
  end.

(** *** ethers v6, [fixednumber.ts] *)

Definition Zeros : chars := list_ascii_of_string "0000".

(** [while (str.length <= decimals) { str = Zeros + str; }] *)
Equations? pad_whole (str : chars) (decimals : nat) : chars
  by wf (S decimals - List.length str)%nat lt :=
pad_whole str decimals with le_lt_dec (List.length str) decimals => {
  | left _ := pad_whole (Zeros ++ str) decimals;
  | right _ := str }.
Proof. destruct (List.length str); lia. Qed.

Definition starts_with_point (s : chars) : bool :=
  match s with
  | c :: _ => Ascii.eqb c "."
  | [] => false
  end.

(** [while (str[0] === "0" && str[1] !== ".") { str = str.substring(1); }] *)
Fixpoint trim_whole (str : chars) : chars :=
  match str with
  | c :: rest =>
      if Ascii.eqb c "0" && negb (starts_with_point rest) then trim_whole rest
      else str
  | [] => []
  end.

(** [while (str[str.length - 1] === "0" && str[str.length - 2] !== ".")
      { str = str.substring(0, str.length - 1); }]:
    the loop above, run from the other end. *)
Definition trim_decimal (str : chars) : chars := rev (trim_whole (rev str)).

(** [toString(val, decimals)]: the digits of [val] with a decimal point
    [decimals] places from the right, no needless zero at either end. *)
Definition toString (val : Z) (decimals : nat) : chars :=
  let negative := if val <? 0 then ["-"%char] else [] in
  let val := if val <? 0 then val * -1 else val in
  let str := bigint_toString val in
  if (decimals =? 0)%nat then negative ++ str
  else
    let str := pad_whole str decimals in
    let index := (List.length str - decimals)%nat in
    let str := firstn index str ++ "."%char :: skipn index str in
    let str := trim_whole str in
    let str := trim_decimal str in
    negative ++ str.

(** [checkValue] for a signed format of [width] bits. *)
Definition in_range (val : Z) (width : Z) : bool :=
  let limit := Z.shiftl 1 (width - 1) in
  (- limit <=? val) && (val <? limit).

Definition overflow : exn :=
  RangeError "overflow".

(** [formatUnits(value, decimals)] is
    [FixedNumber.fromValue(value, decimals, { decimals, width: 512 }).toString()]. *)
Definition formatUnits (value : Z) (decimals : nat) : exn + string :=
  if in_range value 512 then inr (string_of_list_ascii (toString value decimals))
  else inl overflow.

Definition formatEther (wei : Z) : exn + string := formatUnits wei 18.

(** [while (decimal.length < format.decimals) { decimal += Zeros; }] *)
Equations? pad_decimal (decimal : chars) (decimals : nat) : chars
  by wf (decimals - List.length decimal)%nat lt :=
pad_decimal decimal decimals with le_lt_dec decimals (List.length decimal) => {
  | left _ := decimal;
  | right _ := pad_decimal (decimal ++ Zeros) decimals }.
Proof. rewrite length_app. simpl. lia. Qed.

(** [FixedNumber.fromString(value, { decimals, width: 512 }).value]:
    the text is an optional minus sign, digits, an optional point and
    digits, nothing else, with at least one digit in all; it carries no
    non-zero digit beyond [decimals] places. *)
Definition fromString (s : chars) (decimals : nat) : exn + Z :=
  let (neg, s1) :=
    match s with
    | "-"%char :: r => (true, r)
    | _ => (false, s)
    end in
  let (whole, s2) := span_digits s1 in
  let s3 := if starts_with_point s2 then tl s2 else s2 in
  let (decimal, s4) := span_digits s3 in
  match s4 with
  | _ :: _ => inl (TypeError "invalid FixedNumber string value")
  | [] =>
      if (List.length whole + List.length decimal =? 0)%nat
      then inl (TypeError "invalid FixedNumber string value")
      else
        let whole := match whole with [] => ["0"%char] | _ => whole end in
        let decimal := pad_decimal decimal decimals in
        if forallb (Ascii.eqb "0") (skipn decimals decimal) then
          let decimal := firstn decimals decimal in
          let v := value (whole ++ decimal) in
          let v := if neg then - v else v in
          if in_range v 512 then inr v else inl overflow
        else inl (RangeError "too many decimals for format")
  end.

Definition parseUnits (value : string) (decimals : nat) : exn + Z :=
  fromString (list_ascii_of_string value) decimals.

Definition parseEther (ether : string) : exn + Z := parseUnits ether 18.

(** *** ECMAScript, StringToNumber *)

(** White space and line terminators, as far as one-byte characters go. *)
Definition is_space (c : ascii) : bool :=
  let n := nat_of_ascii c in (((9 <=? n) && (n <=? 13)) || (n =? 32))%nat.

Fixpoint trim_start (s : chars) : chars :=
  match s with
  | c :: r => if is_space c then trim_start r else s
  | [] => []
  end.

Definition trim (s : chars) : chars := rev (trim_start (rev (trim_start s))).

Definition chars_eqb (a b : chars) : bool :=
  String.eqb (string_of_list_ascii a) (string_of_list_ascii b).

(** ExponentPart, or nothing, up to the end of the text. *)
Definition exponent_part (s : chars) : option Z :=
  match s with
  | [] => Some 0
  | c :: r =>
      if Ascii.eqb c "e" || Ascii.eqb c "E" then
        let (neg, r') :=
          match r with
          | "-"%char :: r' => (true, r')
          | "+"%char :: r' => (false, r')
          | _ => (false, r)
          end in
        match span_digits r' with
        | ((_ :: _) as ds, []) => Some (if neg then - value ds else value ds)
        | _ => None
        end
      else None
  end.

(** The binary64 value of the decimal [c * 10^x]. *)
Definition decimal (neg : bool) (c x : Z) : Float64.t :=
  if 0 <=? x then Float64.round neg (c * 10 ^ x) 1
  else Float64.round neg c (10 ^ (- x)).

(** StrUnsignedDecimalLiteral. *)
Definition unsigned_decimal (neg : bool) (s : chars) : option Float64.t :=
  if chars_eqb s (list_ascii_of_string "Infinity") then Some (Float64.Inf neg)
  else
    let (whole, s1) := span_digits s in
    let (frac, s2) :=
      if starts_with_point s1 then span_digits (tl s1) else ([], s1) in
    if (List.length whole + List.length frac =? 0)%nat then None
    else
      match exponent_part s2 with
      | Some x =>
          Some (decimal neg (value (whole ++ frac)) (x - Z.of_nat (List.length frac)))
      | None => None
      end.

(** StrDecimalLiteral. *)
Definition signed_decimal (s : chars) : option Float64.t :=
  match s with
  | "-"%char :: r => unsigned_decimal true r
  | "+"%char :: r => unsigned_decimal false r
  | _ => unsigned_decimal false s
  end.

(** The value of a digit in a base up to 16. *)
Definition digit_in (base : Z) (c : ascii) : option Z :=
  let n := Z.of_nat (nat_of_ascii c) in
  let d :=
    if (48 <=? n) && (n <=? 57) then n - 48
    else if (97 <=? n) && (n <=? 102) then n - 87
    else if (65 <=? n) && (n <=? 70) then n - 55
    else 16 in
  if d <? base then Some d else None.

Fixpoint radix_value (base : Z) (s : chars) (acc : Z) : option Z :=
  match s with
  | [] => Some acc
  | c :: r =>
      match digit_in base c with
      | Some d => radix_value base r (base * acc + d)
      | None => None
      end
  end.

(** NonDecimalIntegerLiteral: [0x], [0o], [0b] and their digits. *)
Definition non_decimal (s : chars) : option Float64.t :=
  match s with
  | "0"%char :: p :: ((_ :: _) as ds) =>
      let base :=
        if Ascii.eqb p "x" || Ascii.eqb p "X" then 16
        else if Ascii.eqb p "o" || Ascii.eqb p "O" then 8
        else if Ascii.eqb p "b" || Ascii.eqb p "B" then 2
        else 0 in
      match radix_value base ds 0 with
      | Some v => Some (Float64.round false v 1)
      | None => None
      end
  | _ => None
  end.

(** [Number(str)] for a string argument. *)
Definition Number (str : string) : Float64.t :=
  match trim (list_ascii_of_string str) with
  | [] => Float64.Fin false 0 0
  | s =>
      match signed_decimal s with
      | Some f => f
      | None =>
          match non_decimal s with
          | Some f => f
          | None => Float64.NaN
          end
      end
  end.

End Text.

(** ** Values the script handles *)

(** A JavaScript value, as far as the script looks into it. *)
#[warnings="-register-all"]
Inductive jsval : Type :=
| Undefined
| Str (s : string)
| Big (n : Z)
| Boolean (b : bool)
| Err (e : exn)
| Obj (fields : list (string * jsval)).

(** [process.env] after [dotenv.config()]. *)
Record environment : Type := {
  INFURA_PROJECT_KEY : option string;
  PUBLIC_KEY : option string;
  PRIVATE_KEY : option string
}.

(** An environment entry as a value: a string or [undefined]. *)
Definition entry (v : option string) : jsval :=
  match v with
  | Some s => Str s
  | None => Undefined
  end.

(** An environment entry inside a template literal or after [+]. *)
Definition interpolate (v : option string) : string :=
  match v with
  | Some s => s
  | None => "undefined"
  end.

(** viem chain definitions. *)
Record Chain : Type := { id : Z; chain_name : string }.

Definition sepolia : Chain := {| id := 11155111; chain_name := "Sepolia" |}.

Definition arbitrumSepolia : Chain :=
  {| id := 421614; chain_name := "Arbitrum Sepolia" |}.

Record Account : Type := { address : string }.

Record WalletClient : Type := {
  wallet_account : Account;
  wallet_chain : Chain;
  wallet_transport : string
}.

Record PublicClient : Type := {
  public_chain : Chain;
  public_transport : string
}.

(** Across SDK types. *)
Record TokenInfo : Type := { token_address : string; symbol : string }.

Record AcrossChain : Type := {
  chainId : Z;
  inputTokens : list TokenInfo;
  outputTokens : list TokenInfo
}.

Definition ChainsQueryResponse : Type := list AcrossChain.

Record Route : Type := {
  originChainId : Z;
  destinationChainId : Z;
  inputToken : string;
  outputToken : string
}.

Record GetQuoteParams : Type := { route : Route; inputAmount : Z }.

Record Deposit : Type := {
  deposit_inputAmount : Z;
  deposit_outputAmount : Z;
  deposit_rest : jsval
}.

Record Quote : Type := {
  deposit : Deposit;
  fees_totalRelayFee_total : Z;
  (** a number, or [undefined] *)
  estimatedFillTimeSec : option Float64.t
}.

Record ExecutionProgress : Type := {
  step : string;
  status : string;
  txReceipt : jsval;
  depositId : jsval;
  fillTxTimestamp : jsval;
  actionSuccess : jsval;
  (** the properties the script never reads by name *)
  progress_rest : list (string * jsval)
}.

Record ExecuteQuoteResponseParams : Type := {
  result_depositId : jsval;
  depositTxReceipt : jsval;
  fillTxReceipt : jsval;
  error : option exn
}.

Record AcrossOptions : Type := {
  integratorId : string;
  chains : list Chain;
  useTestnet : bool
}.

Record AcrossClient : Type := { options : AcrossOptions }.

Definition progress_object (p : ExecutionProgress) : jsval :=
  Obj ([("step", Str (step p)); ("status", Str (status p));
        ("txReceipt", txReceipt p); ("depositId", depositId p);
        ("fillTxTimestamp", fillTxTimestamp p);
        ("actionSuccess", actionSuccess p)]%string ++ progress_rest p).

Definition result_object (r : ExecuteQuoteResponseParams) : jsval :=
  Obj [("depositId", result_depositId r);
       ("depositTxReceipt", depositTxReceipt r);
       ("fillTxReceipt", fillTxReceipt r);
       ("error", match error r with Some e => Err e | None => Undefined end)]%string.

(** What the script imports and this development leaves open. *)
Record imports : Type := {
  (** [infura.SepoliaPrefixes.Sepolia] of [./constants] *)
  infura_Sepolia : string;
  (** [infura.SepoliaPrefixes.Arbitrum] of [./constants] *)
  infura_Arbitrum : string;
  (** the address of a secp256k1 secret key (public key, keccak-256) *)
  secretToAddress : Z -> string;
  (** the text [JSON.stringify] returns for a value it can serialize *)
  JSON_text : jsval -> string;
  (** the text of a number in a template literal ([Number::toString]) *)
  Number_toString : Float64.t -> string
}.

(** A BigInt somewhere in a value, at any depth. *)
Fixpoint has_bigint (v : jsval) : bool :=
  match v with
  | Big _ => true
  | Obj fields =>
      (fix any (l : list (string * jsval)) : bool :=
         match l with
         | [] => false
         | (_, x) :: rest => has_bigint x || any rest
         end) fields
  | _ => false
  end.

Definition not_serializable : exn :=
  TypeError "Do not know how to serialize a BigInt".

(** [JSON.stringify]: a BigInt has no JSON form, and meeting one throws. *)
Definition JSON_stringify (im : imports) (v : jsval) : exn + string :=
  if has_bigint v then inl not_serializable else inr (JSON_text im v).

(** ** Programs: the calls the script makes *)

Inductive prog (A : Type) : Type :=
| Ret (a : A)
| Throw (e : exn)
| console_log (args : list jsval) (k : prog A)
| publicClient_getBalance (client : PublicClient) (address : jsval)
    (k : Z -> prog A)
| createAcrossClient (opts : AcrossOptions) (k : AcrossClient -> prog A)
| client_getSupportedChains (client : AcrossClient)
    (k : ChainsQueryResponse -> prog A)
| client_getQuote (client : AcrossClient) (params : GetQuoteParams)
    (k : Quote -> prog A)
| client_executeQuote (client : AcrossClient) (walletClient : WalletClient)
    (dep : Deposit) (onProgress : ExecutionProgress -> prog unit)
    (k : ExecuteQuoteResponseParams -> prog A).

Arguments Ret {A} a.
Arguments Throw {A} e.
Arguments console_log {A} args k.
Arguments publicClient_getBalance {A} client address k.
Arguments createAcrossClient {A} opts k.
Arguments client_getSupportedChains {A} client k.
Arguments client_getQuote {A} client params k.
Arguments client_executeQuote {A} client walletClient dep onProgress k.

(** Sequencing ([await] of a call, or one statement after another). *)
Fixpoint bind {A B : Type} (p : prog A) (f : A -> prog B) : prog B :=
  match p with
  | Ret a => f a
  | Throw e => Throw e
  | console_log args k => console_log args (bind k f)
  | publicClient_getBalance c a k =>
      publicClient_getBalance c a (fun v => bind (k v) f)
  | createAcrossClient o k => createAcrossClient o (fun v => bind (k v) f)
  | client_getSupportedChains c k =>
      client_getSupportedChains c (fun v => bind (k v) f)
  | client_getQuote c q k => client_getQuote c q (fun v => bind (k v) f)
  | client_executeQuote c w d cb k =>
      client_executeQuote c w d cb (fun v => bind (k v) f)
  end.

Declare Scope prog_scope.
Delimit Scope prog_scope with prog.
Bind Scope prog_scope with prog.

Notation "x <- p ;; q" := (bind p (fun x => q))
  (at level 61, p at next level, right associativity) : prog_scope.
Notation "p ;; q" := (bind p (fun _ => q))
  (at level 61, right associativity) : prog_scope.

(** A library call that returns or throws. *)
Definition lift {A : Type} (r : exn + A) : prog A :=
  match r with
  | inl e => Throw e
  | inr a => Ret a
  end.

(** [o.prop] where [o] may be [undefined]. *)
Definition property {A B : Type} (o : option A) (prop : string) (get : A -> B)
  : prog B :=
  match o with
  | Some a => Ret (get a)
  | None => Throw (undefined_read prop)
  end.

Definition log (args : list jsval) : prog unit := console_log args (Ret tt).

(** ** The outside world and runs *)

(** What the script's calls are answered with. *)
Record world : Type := {
  (** the origin chain's node: [eth_getBalance] *)
  rpc_getBalance : PublicClient -> jsval -> exn + Z;
  (** the Across service *)
  across_getSupportedChains : AcrossClient -> exn + ChainsQueryResponse;
  across_getQuote : AcrossClient -> GetQuoteParams -> exn + Quote;
  (** an execution: the progress notifications it sends, in order, and what
      the call resolves to *)
  across_executeQuote :
    AcrossClient -> WalletClient -> Deposit ->
    list ExecutionProgress * (exn + ExecuteQuoteResponseParams)
}.

(** The calls of a run, in order. [OnProgress p] marks the SDK handing
    [p] to the observer. *)
Inductive event : Type :=
| ConsoleLog (args : list jsval)
| GetBalance (client : PublicClient) (address : jsval)
| CreateAcrossClient (opts : AcrossOptions)
| GetSupportedChains (client : AcrossClient)
| GetQuote (client : AcrossClient) (params : GetQuoteParams)
| ExecuteQuote (client : AcrossClient) (walletClient : WalletClient)
    (dep : Deposit)
| OnProgress (progress : ExecutionProgress).

Definition trace : Type := list event.

(** The outcome of a run: the value returned, or the exception that
    reached the top. *)
Definition outcome (A : Type) : Type := (exn + A)%type.

(** Putting [e] in front of what the rest of the run does. *)
Definition after {A : Type} (e : event) (r : trace * outcome A)
  : trace * outcome A :=
  (e :: fst r, snd r).

(** An answer that is an exception ends the run there. *)
Definition answered {A X : Type} (e : event) (answer : exn + X)
  (k : X -> trace * outcome A) : trace * outcome A :=
  match answer with
  | inl err => ([e], inl err)
  | inr x => after e (k x)
  end.

(** Handing the notifications to the observer, one after the other; an
    exception thrown by the observer is not caught. *)
Fixpoint deliver (observe : ExecutionProgress -> trace * outcome unit)
  (ps : list ExecutionProgress) : trace * outcome unit :=
  match ps with
  | [] => ([], inr tt)
  | p :: ps' =>
      match observe p with
      | (t, inl e) => (OnProgress p :: t, inl e)
      | (t, inr _) =>
          let (t', r) := deliver observe ps' in (OnProgress p :: t ++ t', r)
      end
  end.

Fixpoint run {A : Type} (w : world) (p : prog A) : trace * outcome A :=
  match p with
  | Ret a => ([], inr a)
  | Throw e => ([], inl e)
  | console_log args k => after (ConsoleLog args) (run w k)
  | publicClient_getBalance c a k =>
      answered (GetBalance c a) (rpc_getBalance w c a) (fun v => run w (k v))
  | createAcrossClient o k =>
      after (CreateAcrossClient o) (run w (k {| options := o |}))
  | client_getSupportedChains c k =>
      answered (GetSupportedChains c) (across_getSupportedChains w c)
        (fun v => run w (k v))
  | client_getQuote c q k =>
      answered (GetQuote c q) (across_getQuote w c q) (fun v => run w (k v))
  | client_executeQuote c wc d cb k =>
      let (ps, answer) := across_executeQuote w c wc d in
      match deliver (fun p => run w (cb p)) ps with
      | (t, inl e) => (ExecuteQuote c wc d :: t, inl e)
      | (t, inr _) =>
          match answer with
          | inl e => (ExecuteQuote c wc d :: t, inl e)
          | inr r => let (t', o) := run w (k r) in
                     (ExecuteQuote c wc d :: t ++ t', o)
          end
      end
  end.

(** ** The script, [src/sdk-app.ts] *)

Local Open Scope string_scope.
Local Open Scope prog_scope.

Definition originChain : Chain := sepolia.
Definition destinationChain : Chain := arbitrumSepolia.
Definition originTokenSymbol : string := "ETH".
Definition destTokenSymbol : string := "WETH".

(** The order of the secp256k1 group. *)
Definition secp256k1_n : Z :=
  0xFFFFFFFFFFFFFFFFFFFFFFFFFFFFFFFEBAAEDCE6AF48A03BBFD25E8CD0364141.

Section Script.

Variable im : imports.

(** viem's [privateKeyToAccount]: the text after the first two characters
    must be the 64 hexadecimal digits of a secret key in [1, n-1]. *)
Definition privateKeyToAccount (privateKey : string) : exn + Account :=
  let hex := skipn 2 (list_ascii_of_string privateKey) in
  match (if (List.length hex =? 64)%nat then Text.radix_value 16 hex 0
         else None) with
  | Some d =>
      if (1 <=? d)%Z && (d <? secp256k1_n)%Z
      then inr {| address := secretToAddress im d |}
      else inl (Error "Error" "invalid private key, expected 0 < key < curve order")
  | None =>
      inl (Error "Error" "private key must be 32 bytes, hex or bigint, not string")
  end.

(** The module-level constants that depend on the environment. *)
Record globals : Type := {
  env : environment;
  account : Account;
  walletClient : WalletClient;
  publicClient : PublicClient
}.

Definition getPK (g : globals) : string := address (account g).

Definition getPubKey (e : environment) : jsval := entry (PUBLIC_KEY e).

Definition getOriginChainRpcUrl (e : environment) : string :=
  infura_Sepolia im ++ interpolate (INFURA_PROJECT_KEY e).

Definition getDestinationChainRpcUrl (e : environment) : string :=
  infura_Arbitrum im ++ interpolate (INFURA_PROJECT_KEY e).

Definition preValidate (g : globals) : prog unit :=
  log [Str "Validating balance of wallet with pub key: "; getPubKey (env g)] ;;
  weiBalance <- publicClient_getBalance (publicClient g) (getPubKey (env g)) Ret ;;
  log [Str "wei balance: "; Big weiBalance] ;;
  ethBalance <- lift (Text.formatEther weiBalance) ;;
  log [Str "Balance in ETH:"; Str ethBalance] ;;
  if Float64.ltb (Text.Number ethBalance) (Float64.literal 1 (-2)) then
    log [Str "Insufficient funds... Exiting early"] ;;
    Throw InsufficientFundsError
  else Ret tt.

Definition getQuote (client : AcrossClient) : prog Quote :=
  chains <- client_getSupportedChains client Ret ;;
  let originAcrossChain :=
    find (fun x => chainId x =? id originChain)%Z chains in
  tokens <- property originAcrossChain "inputTokens" inputTokens ;;
  let originTokenInfo :=
    find (fun x => symbol x =? originTokenSymbol) tokens in
  let destinationAcrossChain :=
    find (fun x => chainId x =? id destinationChain)%Z chains in
  tokens <- property destinationAcrossChain "inputTokens" inputTokens ;;
  let destinationTokenInfo :=
    find (fun x => symbol x =? destTokenSymbol) tokens in
  input <- property originTokenInfo "address" token_address ;;
  output <- property destinationTokenInfo "address" token_address ;;
  amount <- lift (Text.parseEther "0.0002") ;;
  let intent :=
    {| route := {| originChainId := id originChain;
                   destinationChainId := id destinationChain;
                   inputToken := input;
                   outputToken := output |};
       inputAmount := amount |} in
  log [Str "Requesting quote from Across..."] ;;
  quote <- client_getQuote client intent Ret ;;
  log [Str "=== Quote Received ==="] ;;
  sent <- lift (Text.formatEther (deposit_inputAmount (deposit quote))) ;;
  log [Str ("You send: " ++ sent ++ " ETH on Chain " ++ chain_name originChain)] ;;
  received <- lift (Text.formatEther (deposit_outputAmount (deposit quote))) ;;
  log [Str ("You receive: " ++ received ++ " WETH on Chain "
            ++ chain_name destinationChain)] ;;
  fee <- lift (Text.formatEther (fees_totalRelayFee_total quote)) ;;
  log [Str ("Bridge fee: " ++ fee)] ;;
  log [Str ("Estimated time: "
            ++ match estimatedFillTimeSec quote with
               | Some x => if Float64.falsy x then "N/A"
                           else Number_toString im x
               | None => "N/A"
               end
            ++ " seconds")] ;;
  Ret quote.

Definition onProgressCallback (progress : ExecutionProgress) : prog unit :=
  if negb (status progress =? "txSuccess") then
    log [Str ("Step '" ++ step progress ++ "' failed with status: "
              ++ status progress)]
  else if step progress =? "approve" then
    log [Str "Approval receipt received: "; txReceipt progress]
  else if step progress =? "deposit" then
    log [Str "Deposit Id received receipt: "; depositId progress]
  else if step progress =? "fill" then
    log [Str "Order successfully filled at: "; fillTxTimestamp progress]
  else
    text <- lift (JSON_stringify im (progress_object progress)) ;;
    log [Str "Unknown step: "; Str text].

Definition bridge (g : globals) : prog unit :=
  preValidate g ;;
  client <- createAcrossClient
              {| integratorId := "0xdead";
                 chains := [originChain; destinationChain];
                 useTestnet := true |} Ret ;;
  quote <- getQuote client ;;
  bridgeResult <- client_executeQuote client (walletClient g) (deposit quote)
                    onProgressCallback Ret ;;
  match error bridgeResult with
  | Some e => log [Str "Bridge failed with error: "; Err e]
  | None =>
      text <- lift (JSON_stringify im (result_object bridgeResult)) ;;
      log [Str text]
  end.

(** The module body, top to bottom. *)
Definition main (e : environment) : prog unit :=
  log [Str "Loaded Infura project key: "; entry (INFURA_PROJECT_KEY e)] ;;
  log [Str "Loaded Pub Key: "; entry (PUBLIC_KEY e)] ;;
  log [Str "Loaded PK: "; entry (PRIVATE_KEY e)] ;;
  log [Str ("Origin chain selected: " ++ chain_name originChain)] ;;
  log [Str ("Destination chain selected: " ++ chain_name destinationChain)] ;;
  account <- lift (privateKeyToAccount ("0x" ++ interpolate (PRIVATE_KEY e))) ;;
  let walletClient :=
    {| wallet_account := account;
       wallet_chain := originChain;
       wallet_transport := getOriginChainRpcUrl e |} in
  let publicClient :=
    {| public_chain := sepolia;
       public_transport := getOriginChainRpcUrl e |} in
  bridge {| env := e; account := account;
            walletClient := walletClient; publicClient := publicClient |}.

End Script.

(** ** Reading a trace *)

(** The addresses whose balance was asked for. *)
Definition balance_queries (t : trace) : list jsval :=
  flat_map (fun e => match e with GetBalance _ a => [a] | _ => [] end) t.

(** The quote requests submitted to the service. *)
Definition quote_requests (t : trace) : list GetQuoteParams :=
  flat_map (fun e => match e with GetQuote _ q => [q] | _ => [] end) t.

(** The executions started: the signing client and the deposit handed over. *)
Definition executions (t : trace) : list (WalletClient * Deposit) :=
  flat_map (fun e => match e with ExecuteQuote _ w d => [(w, d)] | _ => [] end) t.

(** Calls that concern the bridging SDK: building the client, any request
    to the service, any notification from it. *)
Definition is_bridging (e : event) : bool :=
  match e with
  | ConsoleLog _ | GetBalance _ _ => false
  | _ => true
  end.

(** Calls that go over the network. *)
Definition is_network (e : event) : bool :=
  match e with
  | GetBalance _ _ | GetSupportedChains _ | GetQuote _ _
  | ExecuteQuote _ _ _ => true
  | _ => false
  end.

(** The network calls of a run, in order. *)
Definition network_calls (t : trace) : trace := filter is_network t.

(** What follows the first execution call, if there is one. *)
Fixpoint after_execution (t : trace) : option trace :=
  match t with
  | [] => None
  | ExecuteQuote _ _ _ :: rest => Some rest
  | _ :: rest => after_execution rest
  end.

(** The lines [bridge] prints for a terminal result. *)
Definition error_line (e : exn) : event :=
  ConsoleLog [Str "Bridge failed with error: "; Err e].

Definition success_line (im : imports) (r : ExecuteQuoteResponseParams)
  : event :=
  ConsoleLog [Str (JSON_text im (result_object r))].

(** How [bridge] ends once the execution call is made: what it prints and
    its outcome, from how the observer fared with the notifications and
    from what the call resolved to. *)
Definition conclusion (im : imports) (handled : outcome unit)
  (answer : exn + ExecuteQuoteResponseParams) : trace * outcome unit :=
  match handled with
  | inl e => ([], inl e)
  | inr _ =>
      match answer with
      | inl e => ([], inl e)
      | inr r =>
          match error r with
          | Some e => ([error_line e], inr tt)
          | None =>
              if has_bigint (result_object r) then ([], inl not_serializable)
              else ([success_line im r], inr tt)
          end
      end
  end.

(** The client [bridge] builds. *)
Definition bridge_client : AcrossClient :=
  {| options := {| integratorId := "0xdead";
                   chains := [originChain; destinationChain];
                   useTestnet := true |} |}.

(** The observer of [bridge], run in a world. *)
Definition observer (im : imports) (w : world) (p : ExecutionProgress)
  : trace * outcome unit :=
  run w (onProgressCallback im p).

(** The lines the module prints before it builds the account. *)
Definition startup_lines (e : environment) : trace :=
  [ConsoleLog [Str "Loaded Infura project key: "; entry (INFURA_PROJECT_KEY e)];
   ConsoleLog [Str "Loaded Pub Key: "; entry (PUBLIC_KEY e)];
   ConsoleLog [Str "Loaded PK: "; entry (PRIVATE_KEY e)];
   ConsoleLog [Str "Origin chain selected: Sepolia"];
   ConsoleLog [Str "Destination chain selected: Arbitrum Sepolia"]].

(** The module-level constants, once the account is built. *)
Definition globals_of (im : imports) (e : environment) (a : Account) : globals :=
  {| env := e; account := a;
     walletClient := {| wallet_account := a;
                        wallet_chain := originChain;
                        wallet_transport := getOriginChainRpcUrl im e |};
     publicClient := {| public_chain := sepolia;
                        public_transport := getOriginChainRpcUrl im e |} |}.

(** The lookups of [getQuote] in a supported-chains response. *)
Definition origin_entry (cs : ChainsQueryResponse) : option AcrossChain :=
  find (fun x => chainId x =? id originChain)%Z cs.

Definition destination_entry (cs : ChainsQueryResponse) : option AcrossChain :=
  find (fun x => chainId x =? id destinationChain)%Z cs.

Definition input_token (sym : string) (c : AcrossChain) : option TokenInfo :=
  find (fun x => symbol x =? sym) (inputTokens c).

(** Both chains and both tokens are found. *)
Definition resolved (cs : ChainsQueryResponse) : option (TokenInfo * TokenInfo) :=
  match origin_entry cs, destination_entry cs with
  | Some oc, Some dc =>
      match input_token originTokenSymbol oc, input_token destTokenSymbol dc with
      | Some ot, Some dt => Some (ot, dt)
      | _, _ => None
      end
  | _, _ => None
  end.

(** A failure that names the lookup that missed, as the specification
    asks of the quote resolver. *)
Definition named_lookup_failure {A : Type} (o : outcome A) : Prop :=
  exists e, o = inl e /\ (name e = "ChainNotFound" \/ name e = "TokenNotFound").

(** A failure under the condition the specification names for an absent
    private key. *)
Definition missing_credential_failure {A : Type} (o : outcome A) : Prop :=
  exists e, o = inl e /\ name e = "MissingCredential".

(** The steps the observer has a line for. *)
Definition known_step (s : string) : bool :=
  (s =? "approve") || (s =? "deposit") || (s =? "fill").

(** A notification the observer has a line for: a failed one, one of a
    known step, or one that [JSON.stringify] can serialize. *)
Definition printable (p : ExecutionProgress) : bool :=
  negb (status p =? "txSuccess") || known_step (step p)
  || negb (has_bigint (progress_object p)).

(** The shapes a run of [bridge] can have, by the last network call
    it reaches. *)
Inductive bridge_run (im : imports) (w : world) (g : globals)
  : trace * outcome unit -> Prop :=
| stopped_at_balance (t : trace) (e : exn) :
    snd (run w (preValidate g)) = inl e ->
    network_calls t = [GetBalance (publicClient g) (getPubKey (env g))] ->
    after_execution t = None ->
    bridge_run im w g (t, inl e)
| stopped_at_chains (t : trace) (e : exn) :
    snd (run w (preValidate g)) = inr tt ->
    snd (run w (getQuote im bridge_client)) = inl e ->
    network_calls t = [GetBalance (publicClient g) (getPubKey (env g));
                       GetSupportedChains bridge_client] ->
    after_execution t = None ->
    bridge_run im w g (t, inl e)
| stopped_at_quote (t : trace) (e : exn) (params : GetQuoteParams) :
    snd (run w (preValidate g)) = inr tt ->
    snd (run w (getQuote im bridge_client)) = inl e ->
    network_calls t = [GetBalance (publicClient g) (getPubKey (env g));
                       GetSupportedChains bridge_client;
                       GetQuote bridge_client params] ->
    after_execution t = None ->
    bridge_run im w g (t, inl e)
| executed (t : trace) (params : GetQuoteParams) (quote : Quote)
    (ps : list ExecutionProgress) (answer : exn + ExecuteQuoteResponseParams) :
    snd (run w (preValidate g)) = inr tt ->
    snd (run w (getQuote im bridge_client)) = inr quote ->
    across_getQuote w bridge_client params = inr quote ->
    across_executeQuote w bridge_client (walletClient g) (deposit quote)
    = (ps, answer) ->
    network_calls t = [GetBalance (publicClient g) (getPubKey (env g));
                       GetSupportedChains bridge_client;
                       GetQuote bridge_client params;
                       ExecuteQuote bridge_client (walletClient g)
                         (deposit quote)] ->
    after_execution t
    = Some (fst (deliver (observer im w) ps)
            ++ fst (conclusion im (snd (deliver (observer im w) ps)) answer))%list ->
    bridge_run im w g
      (t, snd (conclusion im (snd (deliver (observer im w) ps)) answer)).

(** ** Sample data, for the instances stated after the theorems *)

(** Sample imports.  The two texts are those of the only values the
    sample runs print this way: an object with no property set, and the
    number 2. *)
Definition sample_imports : imports :=
  {| infura_Sepolia := "https://sepolia.infura.io/v3/";
     infura_Arbitrum := "https://arbitrum-sepolia.infura.io/v3/";
     secretToAddress := fun d =>
       "0x" ++ string_of_list_ascii (Text.bigint_toString d);
     JSON_text := fun _ => "{}";
     Number_toString := fun _ => "2" |}.

Definition sample_environment : environment :=
  {| INFURA_PROJECT_KEY := Some "project";
     PUBLIC_KEY := Some "0x00000000000000000000000000000000000000aa";
     PRIVATE_KEY :=
       Some "0000000000000000000000000000000000000000000000000000000000000007" |}.

Definition keyless_environment : environment :=
  {| INFURA_PROJECT_KEY := Some "project";
     PUBLIC_KEY := Some "0x00000000000000000000000000000000000000aa";
     PRIVATE_KEY := None |}.

Definition sample_chains : ChainsQueryResponse :=
  [ {| chainId := 11155111;
       inputTokens := [ {| token_address := "0xE"; symbol := "ETH" |};
                        {| token_address := "0xA"; symbol := "WETH" |} ];
       outputTokens := [ {| token_address := "0xB"; symbol := "WETH" |} ] |};
    {| chainId := 421614;
       inputTokens := [ {| token_address := "0xC"; symbol := "WETH" |} ];
       outputTokens := [ {| token_address := "0xD"; symbol := "WETH" |} ] |} ].

(** A list in which Arbitrum Sepolia offers WETH as an output token only. *)
Definition output_only_chains : ChainsQueryResponse :=
  [ {| chainId := 11155111;
       inputTokens := [ {| token_address := "0xE"; symbol := "ETH" |} ];
       outputTokens := [] |};
    {| chainId := 421614;
       inputTokens := [];
       outputTokens := [ {| token_address := "0xD"; symbol := "WETH" |} ] |} ].

Definition sample_quote (q : GetQuoteParams) : Quote :=
  {| deposit := {| deposit_inputAmount := inputAmount q;
                   deposit_outputAmount := inputAmount q - 1000;
                   deposit_rest := Obj [("route", Str (outputToken (route q)))] |};
     fees_totalRelayFee_total := 1000;
     estimatedFillTimeSec := Some (Float64.Fin false 2 0) |}.

Definition sample_progress (s st : string) : ExecutionProgress :=
  {| step := s; status := st; txReceipt := Undefined; depositId := Big 42;
     fillTxTimestamp := Big 1700000000; actionSuccess := Boolean true;
     progress_rest := [] |}.

Definition sample_result (e : option exn) : ExecuteQuoteResponseParams :=
  {| result_depositId := Big 42; depositTxReceipt := Undefined;
     fillTxReceipt := Undefined; error := e |}.

(** A world with the given balance, chain list and terminal error; the
    execution reports a failed deposit once, then a deposit and a fill. *)
Definition sample_world (balance : Z) (cs : ChainsQueryResponse)
  (e : option exn) : world :=
  {| rpc_getBalance := fun _ _ => inr balance;
     across_getSupportedChains := fun _ => inr cs;
     across_getQuote := fun _ q => inr (sample_quote q);
     across_executeQuote := fun _ _ _ =>
       ([sample_progress "deposit" "txError";
         sample_progress "deposit" "txSuccess";
         sample_progress "fill" "txSuccess"],
        inr (sample_result e)) |}.

Definition sample_globals : globals :=
  {| env := sample_environment;
     account := {| address := "0x7" |};
     walletClient := {| wallet_account := {| address := "0x7" |};
                        wallet_chain := originChain;
                        wallet_transport := "https://sepolia.infura.io/v3/project" |};
     publicClient := {| public_chain := sepolia;
                        public_transport := "https://sepolia.infura.io/v3/project" |} |}.

(** A node that reports one ether for the address in [PUBLIC_KEY] and
    nothing for any other address. *)
Definition split_world : world :=
  {| rpc_getBalance := fun _ a =>
       match a with
       | Str "0x00000000000000000000000000000000000000aa" => inr (10 ^ 18)%Z
       | _ => inr 0%Z
       end;
     across_getSupportedChains := fun _ => inr sample_chains;
     across_getQuote := fun _ q => inr (sample_quote q);
     across_executeQuote := fun _ _ _ => ([], inr (sample_result None)) |}.

Definition reverted : exn := Error "Error" "execution reverted".

(** A result with none of its properties set: [JSON.stringify] prints it
    as ["{}"]. *)
Definition plain_result : ExecuteQuoteResponseParams :=
  {| result_depositId := Undefined; depositTxReceipt := Undefined;
     fillTxReceipt := Undefined; error := None |}.

(** An execution that sends no notification and resolves to [r]. *)
Definition silent_world (r : ExecuteQuoteResponseParams) : world :=
  {| rpc_getBalance := fun _ _ => inr (10 ^ 18)%Z;
     across_getSupportedChains := fun _ => inr sample_chains;
     across_getQuote := fun _ q => inr (sample_quote q);
     across_executeQuote := fun _ _ _ => ([], inr r) |}.


Definition sample_deposit : Deposit :=
  {| deposit_inputAmount := 200000000000000;
     deposit_outputAmount := 199999999999000;
     deposit_rest := Obj [("route", Str "0xC")] |}.

(** ** More sample data *)

(** The node is unreachable. *)
Definition unreachable : exn := Error "HttpRequestError" "HTTP request failed.".

Definition offline_world : world :=
  {| rpc_getBalance := fun _ _ => inl unreachable;
     across_getSupportedChains := fun _ => inr sample_chains;
     across_getQuote := fun _ q => inr (sample_quote q);
     across_executeQuote := fun _ _ _ => ([], inr (sample_result None)) |}.

(** The Across service answers the chain list and fails on the quote. *)
Definition quoteless_world : world :=
  {| rpc_getBalance := fun _ _ => inr (10 ^ 18)%Z;
     across_getSupportedChains := fun _ => inr sample_chains;
     across_getQuote := fun _ _ => inl unreachable;
     across_executeQuote := fun _ _ _ => ([], inr (sample_result None)) |}.

(** The Across service fails on the chain list. *)
Definition chainless_world : world :=
  {| rpc_getBalance := fun _ _ => inr (10 ^ 18)%Z;
     across_getSupportedChains := fun _ => inl unreachable;
     across_getQuote := fun _ q => inr (sample_quote q);
     across_executeQuote := fun _ _ _ => ([], inr (sample_result None)) |}.

(** The quote comes with an estimated fill time of 0 seconds. *)
Definition instant_world : world :=
  {| rpc_getBalance := fun _ _ => inr (10 ^ 18)%Z;
     across_getSupportedChains := fun _ => inr sample_chains;
     across_getQuote := fun _ q =>
       inr {| deposit := deposit (sample_quote q);
              fees_totalRelayFee_total := 1000;
              estimatedFillTimeSec := Some (Float64.Fin false 0 0) |};
     across_executeQuote := fun _ _ _ => ([], inr (sample_result None)) |}.

(** The execution reports a deposit and then rejects. *)
Definition rejecting_world : world :=
  {| rpc_getBalance := fun _ _ => inr (10 ^ 18)%Z;
     across_getSupportedChains := fun _ => inr sample_chains;
     across_getQuote := fun _ q => inr (sample_quote q);
     across_executeQuote := fun _ _ _ =>
       ([sample_progress "deposit" "txSuccess"], inl reverted) |}.

(** The key is given with the prefix the script adds itself. *)
Definition prefixed_environment : environment :=
  {| INFURA_PROJECT_KEY := Some "project";
     PUBLIC_KEY := Some "0x00000000000000000000000000000000000000aa";
     PRIVATE_KEY :=
       Some "0x0000000000000000000000000000000000000000000000000000000000000007" |}.

(** No project key for the RPC provider. *)
Definition projectless_environment : environment :=
  {| INFURA_PROJECT_KEY := None;
     PUBLIC_KEY := Some "0x00000000000000000000000000000000000000aa";
     PRIVATE_KEY :=
       Some "0000000000000000000000000000000000000000000000000000000000000007" |}.

(** A notification with another [actionSuccess] flag. *)
Definition with_actionSuccess (p : ExecutionProgress) (flag : jsval)
  : ExecutionProgress :=
  {| step := step p; status := status p; txReceipt := txReceipt p;
     depositId := depositId p; fillTxTimestamp := fillTxTimestamp p;
     actionSuccess := flag; progress_rest := progress_rest p |}.

(** The RPC endpoints of the chain clients that the calls of a run go
    through. *)
Definition transports (t : trace) : list string :=
  flat_map (fun e => match e with
                     | GetBalance c _ => [public_transport c]
                     | ExecuteQuote _ wc _ => [wallet_transport wc]
                     | _ => []
                     end) t.

(** One notification and the line the observer printed for it. *)
Definition notified (pl : ExecutionProgress * list jsval) : trace :=
  [OnProgress (fst pl); ConsoleLog (snd pl)].

(** * Proofs *)

Close Scope prog_scope.
Close Scope string_scope.

(** ** Sample evaluations *)

Example toString_zero : Text.bigint_toString 0 = list_ascii_of_string "0".
Proof. reflexivity. Qed.

Example toString_negative :
  Text.bigint_toString (-1204) = list_ascii_of_string "-1204".
Proof. reflexivity. Qed.

Example formatEther_one : Text.formatEther (10 ^ 18) = inr "1.0"%string.
Proof. vm_compute. reflexivity. Qed.
Example formatEther_minimum : Text.formatEther (10 ^ 16) = inr "0.01"%string.
Proof. vm_compute. reflexivity. Qed.
Example formatEther_below_minimum :
  Text.formatEther (10 ^ 16 - 1) = inr "0.009999999999999999"%string.
Proof. vm_compute. reflexivity. Qed.
Example formatEther_zero : Text.formatEther 0 = inr "0.0"%string.
Proof. vm_compute. reflexivity. Qed.
Example formatEther_negative :
  Text.formatEther (-1230000000000000000) = inr "-1.23"%string.
Proof. vm_compute. reflexivity. Qed.
Example formatEther_long :
  Text.formatEther 123456789012345678901234567890
  = inr "123456789012.34567890123456789"%string.
Proof. vm_compute. reflexivity. Qed.
Example parseEther_input_amount :
  Text.parseEther "0.0002" = inr 200000000000000.
Proof. vm_compute. reflexivity. Qed.
Example parseEther_trailing_point : Text.parseEther "1." = inr (10^18).
Proof. vm_compute. reflexivity. Qed.
Example parseEther_leading_point : Text.parseEther ".5" = inr (5 * 10^17).
Proof. vm_compute. reflexivity. Qed.
Example parseEther_too_many_decimals :
  exists e, Text.parseEther "0.0000000000000000001" = inl e.
Proof. vm_compute. eauto. Qed.
Example parseEther_lone_point : exists e, Text.parseEther "." = inl e.
Proof. vm_compute. eauto. Qed.
Example Number_minimum : Text.Number "0.01" = Float64.literal 1 (-2).
Proof. vm_compute. reflexivity. Qed.
Example Number_exponent :
  Text.Number " 12e-1 " = Float64.Fin false 5404319552844595 (-52).
Proof. vm_compute. reflexivity. Qed.
Example Number_hexadecimal : Text.Number "0x10" = Float64.Fin false (2^52) (-48).
Proof. vm_compute. reflexivity. Qed.
Example Number_not_a_number : Text.Number "abc" = Float64.NaN.
Proof. vm_compute. reflexivity. Qed.
Example Number_infinity : Text.Number "-Infinity" = Float64.Inf true.
Proof. vm_compute. reflexivity. Qed.
Example Number_below_minimum :
  Text.Number "0.009999999999999999"
  = Float64.Fin false 5764607523034234 (-59).
Proof. vm_compute. reflexivity. Qed.

(** ** Rounding to binary64 around [0.01] *)

Module Float64Facts.
Import Float64.

Lemma rne_ge (n d M : Z) : 0 < d -> (2 * M - 1) * d < 2 * n -> M <= rne n d.
Proof.
  intros Hd H. unfold rne.
  pose proof (Z.div_mod n d ltac:(lia)) as E.
  pose proof (Z.mod_pos_bound n d Hd) as B.
  destruct (Z.compare_spec (2 * (n mod d)) d); [destruct (Z.even (n / d))| |]; nia.
Qed.

Lemma rne_le (n d M : Z) : 0 < d -> 2 * n < (2 * M + 1) * d -> rne n d <= M.
Proof.
  intros Hd H. unfold rne.
  pose proof (Z.div_mod n d ltac:(lia)) as E.
  pose proof (Z.mod_pos_bound n d Hd) as B.
  destruct (Z.compare_spec (2 * (n mod d)) d); [destruct (Z.even (n / d))| |]; nia.
Qed.

Lemma rne_nonneg (n d : Z) : 0 <= n -> 0 < d -> 0 <= rne n d.
Proof. intros Hn Hd. apply rne_ge; lia. Qed.

Lemma pow2_pos (k : Z) : 0 <= k -> 0 < 2 ^ k.
Proof. intros. apply Z.pow_pos_nonneg; lia. Qed.

(** [scale2] at [ex + k] against [scale2] at [ex]. *)
Lemma ge_pow2_shift (p q ex k : Z) :
  0 <= k ->
  ge_pow2 p q (ex + k) = (let (n, d) := scale2 p q ex in d * 2 ^ k <=? n).
Proof.
  intros Hk. unfold ge_pow2, scale2.
  destruct (Z.leb_spec 0 ex) as [Hex|Hex].
  - destruct (Z.leb_spec 0 (ex + k)); [|lia].
    rewrite Z.pow_add_r by lia. now rewrite Z.mul_assoc.
  - pose proof (pow2_pos (- ex) ltac:(lia)) as P1.
    destruct (Z.leb_spec 0 (ex + k)) as [Hs|Hs].
    + assert (E : 2 ^ k = 2 ^ (ex + k) * 2 ^ (- ex))
        by (rewrite <- Z.pow_add_r by lia; f_equal; lia).
      rewrite E.
      apply eq_true_iff_eq. rewrite !Z.leb_le, Z.mul_assoc.
      apply Z.mul_le_mono_pos_r; assumption.
    + assert (E : 2 ^ (- ex) = 2 ^ (- (ex + k)) * 2 ^ k)
        by (rewrite <- Z.pow_add_r by lia; f_equal; lia).
      rewrite E.
      apply eq_true_iff_eq. rewrite !Z.leb_le, Z.mul_assoc.
      apply Z.mul_le_mono_pos_r. now apply pow2_pos.
Qed.

Lemma scale2_den_pos (p q k : Z) : 0 < q -> 0 < snd (scale2 p q k).
Proof.
  intros Hq. unfold scale2. destruct (Z.leb_spec 0 k); simpl; [|assumption].
  pose proof (pow2_pos k ltac:(assumption)). nia.
Qed.

Lemma ge_pow2_mono (p q j k : Z) :
  0 < q -> j <= k -> ge_pow2 p q k = true -> ge_pow2 p q j = true.
Proof.
  intros Hq Hjk.
  replace k with (j + (k - j)) by lia.
  rewrite (ge_pow2_shift p q j (k - j)) by lia.
  rewrite <- (Z.add_0_r j) at 2. rewrite (ge_pow2_shift p q j 0) by lia.
  pose proof (scale2_den_pos p q j Hq) as Hd.
  destruct (scale2 p q j) as [n d]. simpl in Hd.
  rewrite !Z.leb_le. pose proof (pow2_pos (k - j) ltac:(lia)). nia.
Qed.

Lemma pow2_split (a b : Z) : 0 <= a -> 0 <= b -> 2 ^ (a + b) = 2 ^ a * 2 ^ b.
Proof. intros. apply Z.pow_add_r; assumption. Qed.

Lemma ilog2_spec (p q : Z) :
  0 < p -> 0 < q ->
  ge_pow2 p q (ilog2 p q) = true /\ ge_pow2 p q (ilog2 p q + 1) = false.
Proof.
  intros Hp Hq. unfold ilog2.
  pose proof (Z.log2_spec p Hp) as [Pl Pu].
  pose proof (Z.log2_spec q Hq) as [Ql Qu].
  pose proof (Z.log2_nonneg p) as Ha. pose proof (Z.log2_nonneg q) as Hb.
  set (a := Z.log2 p) in *. set (b := Z.log2 q) in *.
  replace (Z.succ a) with (a + 1) in Pu by lia.
  replace (Z.succ b) with (b + 1) in Qu by lia.
  pose proof (pow2_pos a Ha). pose proof (pow2_pos b Hb).
  destruct (ge_pow2 p q (a - b)) eqn:G.
  - split; [assumption|].
    unfold ge_pow2, scale2.
    destruct (Z.leb_spec 0 (a - b + 1)); apply Z.leb_gt.
    + assert (E : 2 ^ (a + 1) = 2 ^ b * 2 ^ (a - b + 1))
        by (rewrite <- pow2_split by lia; f_equal; lia).
      pose proof (pow2_pos (a - b + 1) ltac:(lia)). nia.
    + assert (E : 2 ^ b = 2 ^ (a + 1) * 2 ^ (- (a - b + 1)))
        by (rewrite <- pow2_split by lia; f_equal; lia).
      pose proof (pow2_pos (- (a - b + 1)) ltac:(lia)). nia.
  - replace (a - b - 1 + 1) with (a - b) by lia. split; [|assumption].
    unfold ge_pow2, scale2.
    destruct (Z.leb_spec 0 (a - b - 1)); apply Z.leb_le.
    + assert (E : 2 ^ a = 2 ^ (b + 1) * 2 ^ (a - b - 1))
        by (rewrite <- pow2_split by lia; f_equal; lia).
      pose proof (pow2_pos (a - b - 1) ltac:(lia)). nia.
    + assert (E : 2 ^ (b + 1) = 2 ^ a * 2 ^ (- (a - b - 1)))
        by (rewrite <- pow2_split by lia; f_equal; lia).
      pose proof (pow2_pos (- (a - b - 1)) ltac:(lia)). nia.
Qed.


Lemma literal_min_eth : literal 1 (-2) = min_eth.
Proof. vm_compute. reflexivity. Qed.

Lemma ltb_fin_min (s : bool) (m ex : Z) :
  ltb (Fin s m ex) min_eth
  = (signed s m * 2 ^ (ex - Z.min ex (-59))
     <? 5764607523034235 * 2 ^ (-59 - Z.min ex (-59))).
Proof. reflexivity. Qed.

Lemma round_unfold (neg : bool) (p q : Z) :
  0 < p ->
  round neg p q =
  let ex := Z.max (ilog2 p q - 52) (-1074) in
  let m := rne (fst (scale2 p q ex)) (snd (scale2 p q ex)) in
  if (0 <=? ex) && (2 ^ 1024 <=? m * 2 ^ ex) then Inf neg else Fin neg m ex.
Proof.
  intros Hp. unfold round. destruct (Z.eqb_spec p 0); [lia|].
  cbv zeta. destruct (scale2 p q _). reflexivity.
Qed.

(** At or above [0.01] the rounded value is not below [min_eth]. *)
Lemma round_ge_min (p q : Z) :
  0 < q -> q <= 100 * p -> ltb (round false p q) min_eth = false.
Proof.
  intros Hq H. assert (Hp : 0 < p) by lia.
  rewrite round_unfold by assumption. cbv zeta.
  destruct (ilog2_spec p q Hp Hq) as [G1 G2].
  set (e := ilog2 p q) in *.
  assert (He : -7 <= e).
  { destruct (Z_lt_le_dec e (-7)) as [L|L]; [|assumption].
    assert (G : ge_pow2 p q (-7) = true)
      by (unfold ge_pow2, scale2; simpl; apply Z.leb_le; lia).
    rewrite (ge_pow2_mono p q (e + 1) (-7) Hq ltac:(lia) G) in G2.
    discriminate. }
  rewrite Z.max_l by lia.
  pose proof (ge_pow2_shift p q (e - 52) 52 ltac:(lia)) as Sh.
  replace (e - 52 + 52) with e in Sh by lia. rewrite G1 in Sh.
  pose proof (scale2_den_pos p q (e - 52) Hq) as Hd.
  destruct (scale2 p q (e - 52)) as [n d] eqn:S. simpl in Hd. simpl fst. simpl snd.
  symmetry in Sh. apply Z.leb_le in Sh.
  assert (Hm : 2 ^ 52 <= rne n d) by (apply rne_ge; lia).
  destruct ((0 <=? e - 52) && _); [reflexivity|].
  rewrite ltb_fin_min. rewrite Z.min_r by lia. apply Z.ltb_ge. simpl signed.
  replace (-59 - -59) with 0 by lia.
  destruct (Z.eq_dec e (-7)) as [E7|E7].
  - rewrite E7 in S.
    change (scale2 p q (-7 - 52)) with (p * 576460752303423488, q) in S.
    injection S as <- <-. rewrite E7. change (2 ^ (-7 - 52 - -59)) with 1.
    assert (5764607523034235 <= rne (p * 576460752303423488) q)
      by (apply rne_ge; lia).
    lia.
  - assert (2 <= 2 ^ (e - 52 - -59)).
    { change 2 with (2 ^ 1) at 1. apply Z.pow_le_mono_r; lia. }
    change (2 ^ 52) with 4503599627370496 in Hm. change (2 ^ 0) with 1. nia.
Qed.


(** Up to [0.01 - 10^-18] the rounded value is below [min_eth]. *)
Lemma round_lt_min (p q : Z) :
  0 <= p -> 0 < q -> p * 10 ^ 18 <= (10 ^ 16 - 1) * q ->
  ltb (round false p q) min_eth = true.
Proof.
  intros Hp0 Hq H.
  destruct (Z.eq_dec p 0) as [->|Hne]; [reflexivity|].
  assert (Hp : 0 < p) by lia.
  change (10 ^ 18) with 1000000000000000000 in H.
  change (10 ^ 16 - 1) with 9999999999999999 in H.
  rewrite round_unfold by assumption. cbv zeta.
  destruct (ilog2_spec p q Hp Hq) as [G1 G2].
  set (e := ilog2 p q) in *.
  assert (He : e <= -7).
  { destruct (Z_lt_le_dec (-7) e) as [L|L]; [|assumption].
    pose proof (ge_pow2_mono p q (-6) e Hq ltac:(lia) G1) as G.
    unfold ge_pow2, scale2 in G. simpl in G. apply Z.leb_le in G. lia. }
  set (ex := Z.max (e - 52) (-1074)).
  assert (Hex : ex <= -59) by (unfold ex; lia).
  assert (Hlow : e + 1 <= ex + 53) by (unfold ex; lia).
  assert (G3 : ge_pow2 p q (ex + 53) = false).
  { destruct (ge_pow2 p q (ex + 53)) eqn:G; [|reflexivity].
    rewrite (ge_pow2_mono p q (e + 1) (ex + 53) Hq Hlow G) in G2.
    discriminate. }
  rewrite (ge_pow2_shift p q ex 53) in G3 by lia.
  pose proof (scale2_den_pos p q ex Hq) as Hd.
  destruct (scale2 p q ex) as [n d] eqn:S. simpl in Hd. simpl fst. simpl snd.
  apply Z.leb_gt in G3.
  assert (Hm : rne n d <= 2 ^ 53) by (apply rne_le; lia).
  destruct ((0 <=? ex) && _) eqn:O;
    [apply andb_true_iff in O as [O _]; apply Z.leb_le in O; lia|].
  rewrite ltb_fin_min. rewrite Z.min_l by lia. apply Z.ltb_lt. simpl signed.
  replace (ex - ex) with 0 by lia. change (2 ^ 0) with 1.
  destruct (Z.eq_dec e (-7)) as [E7|E7].
  - assert (Ex : ex = -59) by (unfold ex; lia).
    rewrite Ex in S.
    change (scale2 p q (-59)) with (p * 576460752303423488, q) in S.
    injection S as <- <-. rewrite Ex. change (2 ^ (-59 - -59)) with 1.
    assert (rne (p * 576460752303423488) q <= 5764607523034234)
      by (apply rne_le; lia).
    lia.
  - assert (2 <= 2 ^ (-59 - ex)).
    { change 2 with (2 ^ 1) at 1. apply Z.pow_le_mono_r; unfold ex; lia. }
    change (2 ^ 53) with 9007199254740992 in Hm. nia.
Qed.

(** A negative value is below [min_eth]. *)
Lemma round_neg_lt_min (p q : Z) :
  0 <= p -> 0 < q -> ltb (round true p q) min_eth = true.
Proof.
  intros Hp0 Hq.
  destruct (Z.eq_dec p 0) as [->|Hne]; [reflexivity|].
  rewrite round_unfold by lia. cbv zeta.
  set (ex := Z.max (ilog2 p q - 52) (-1074)).
  pose proof (scale2_den_pos p q ex Hq) as Hd.
  assert (Hn : 0 <= fst (scale2 p q ex)).
  { unfold scale2. destruct (0 <=? ex); simpl; [assumption|].
    apply Z.mul_nonneg_nonneg; [assumption|]. apply Z.pow_nonneg. lia. }
  pose proof (rne_nonneg _ _ Hn Hd) as Hm.
  destruct (_ && _); [reflexivity|].
  rewrite ltb_fin_min. apply Z.ltb_lt. simpl signed.
  pose proof (pow2_pos (ex - Z.min ex (-59)) ltac:(lia)).
  pose proof (pow2_pos (-59 - Z.min ex (-59)) ltac:(lia)).
  nia.
Qed.

End Float64Facts.

Module TextFacts.
Import Text.

Lemma digit_cases (c : ascii) :
  is_digit c = true -> In c (list_ascii_of_string "0123456789").
Proof.
  destruct c as [[] [] [] [] [] [] [] []]; intros H;
    try discriminate H; simpl; tauto.
Qed.

Lemma digit_char_ok (d : Z) :
  0 <= d < 10 -> is_digit (digit_char d) = true /\ digit_val (digit_char d) = d.
Proof.
  intros H.
  assert (C : d = 0 \/ d = 1 \/ d = 2 \/ d = 3 \/ d = 4 \/ d = 5 \/ d = 6
              \/ d = 7 \/ d = 8 \/ d = 9) by lia.
  repeat (destruct C as [->|C]; [split; reflexivity|]).
  subst d. split; reflexivity.
Qed.

Lemma fold_value (ds : chars) (acc : Z) :
  fold_left (fun a c => 10 * a + digit_val c) ds acc
  = acc * 10 ^ Z.of_nat (List.length ds) + value ds.
Proof.
  unfold value. revert acc.
  induction ds as [|c ds IH]; intros acc.
  - simpl. lia.
  - cbn [fold_left List.length]. rewrite IH. rewrite (IH (10 * 0 + _)).
    rewrite Nat2Z.inj_succ, Z.pow_succ_r by lia. ring.
Qed.

Lemma value_app (a b : chars) :
  value (a ++ b) = value a * 10 ^ Z.of_nat (List.length b) + value b.
Proof. unfold value at 1. rewrite fold_left_app. apply fold_value. Qed.

Lemma value_cons (c : ascii) (ds : chars) :
  value (c :: ds) = digit_val c * 10 ^ Z.of_nat (List.length ds) + value ds.
Proof. unfold value at 1. cbn [fold_left]. rewrite fold_value. lia. Qed.

Lemma digits_onto_S (fuel : nat) (n : Z) (acc : chars) :
  digits_onto (S fuel) n acc
  = if n <? 10 then digit_char (n mod 10) :: acc
    else digits_onto fuel (n / 10) (digit_char (n mod 10) :: acc).
Proof. reflexivity. Qed.

Lemma digits_onto_spec (fuel : nat) :
  forall n acc, 0 <= n < 10 ^ Z.of_nat (S fuel) ->
  exists ds, digits_onto (S fuel) n acc = ds ++ acc
             /\ all_digits ds /\ ds <> [] /\ value ds = n.
Proof.
  induction fuel as [|fuel IH]; intros n acc Hn.
  - change (10 ^ Z.of_nat 1) with 10 in Hn.
    exists [digit_char (n mod 10)].
    destruct (digit_char_ok (n mod 10)) as [D V].
    { apply Z.mod_pos_bound. lia. }
    repeat split.
    + cbn [digits_onto]. destruct (n <? 10); reflexivity.
    + constructor; [assumption|constructor].
    + discriminate.
    + unfold value. cbn [fold_left]. rewrite V. rewrite Z.mod_small; lia.
  - destruct (digit_char_ok (n mod 10)) as [D V].
    { apply Z.mod_pos_bound. lia. }
    rewrite digits_onto_S.
    destruct (Z.ltb_spec n 10) as [L|L].
    + exists [digit_char (n mod 10)]. repeat split.
      * constructor; [assumption|constructor].
      * discriminate.
      * unfold value. cbn [fold_left]. rewrite V. rewrite Z.mod_small; lia.
    + destruct (IH (n / 10) (digit_char (n mod 10) :: acc)) as (ds & E & A & _ & Vd).
      { split; [apply Z.div_pos; lia|].
        apply Z.div_lt_upper_bound; [lia|].
        rewrite <- Z.pow_succ_r by lia. rewrite <- Nat2Z.inj_succ. apply Hn. }
      exists (ds ++ [digit_char (n mod 10)]). repeat split.
      * rewrite E, <- app_assoc. reflexivity.
      * apply Forall_app. split; [assumption|]. constructor; [assumption|constructor].
      * destruct ds; discriminate.
      * rewrite value_app, Vd. unfold value at 1. cbn [fold_left List.length].
        rewrite V. change (10 ^ Z.of_nat 1) with 10.
        pose proof (Z.div_mod n 10 ltac:(lia)). lia.
Qed.

Lemma digits_spec (n : Z) :
  0 <= n -> all_digits (digits n) /\ digits n <> [] /\ value (digits n) = n.
Proof.
  intros Hn. unfold digits.
  destruct (digits_onto_spec (Z.to_nat (Z.log2 n)) n []) as (ds & E & A & N & V).
  { split; [assumption|].
    rewrite Nat2Z.inj_succ, Z2Nat.id by apply Z.log2_nonneg.
    destruct (Z.eq_dec n 0) as [->|Hz]; [reflexivity|].
    pose proof (Z.log2_spec n ltac:(lia)) as [_ U].
    eapply Z.lt_le_trans; [exact U|].
    apply Z.pow_le_mono_l. pose proof (Z.log2_nonneg n). lia. }
  rewrite E, app_nil_r. auto.
Qed.

Lemma pad_whole_spec (str : chars) (decimals : nat) :
  exists k, pad_whole str decimals = repeat "0"%char k ++ str
            /\ (decimals < List.length (pad_whole str decimals))%nat.
Proof.
  funelim (pad_whole str decimals).
  - destruct H as (k & E & L). rewrite E in *. exists (k + 4)%nat. split; [|assumption].
    rewrite repeat_app, <- app_assoc. reflexivity.
  - exists 0%nat. split; [reflexivity|assumption].
Qed.

Lemma zeros_digits (k : nat) : all_digits (repeat "0"%char k).
Proof. induction k; constructor; [reflexivity|assumption]. Qed.

Lemma value_zeros (k : nat) : value (repeat "0"%char k) = 0.
Proof.
  induction k as [|k IH]; [reflexivity|].
  cbn [repeat]. rewrite value_cons, IH. reflexivity.
Qed.

Lemma value_leading_zeros (k : nat) (ds : chars) :
  value (repeat "0"%char k ++ ds) = value ds.
Proof. rewrite value_app, value_zeros. reflexivity. Qed.

Lemma value_trailing_zeros (k : nat) (ds : chars) :
  value (ds ++ repeat "0"%char k) = value ds * 10 ^ Z.of_nat k.
Proof. rewrite value_app, value_zeros, repeat_length. lia. Qed.

Lemma digit_differs (c x : ascii) :
  is_digit c = true -> is_digit x = false -> Ascii.eqb c x = false.
Proof.
  intros Hc Hx. destruct (Ascii.eqb_spec c x) as [->|]; [congruence|reflexivity].
Qed.

Lemma trim_whole_point (W R : chars) :
  all_digits W -> W <> [] ->
  exists j W', W = repeat "0"%char j ++ W' /\ W' <> []
               /\ trim_whole (W ++ "."%char :: R) = W' ++ "."%char :: R.
Proof.
  induction W as [|c W IH]; intros A N; [contradiction|].
  inversion A as [|? ? Dc AW]; subst.
  cbn [app trim_whole].
  destruct W as [|d W2].
  - exists 0%nat, [c]. repeat split; [discriminate|].
    cbn [app starts_with_point]. rewrite Ascii.eqb_refl, andb_false_r. reflexivity.
  - assert (P : starts_with_point ((d :: W2) ++ "."%char :: R) = false).
    { inversion AW; subst. cbn [app starts_with_point].
      apply digit_differs; [assumption|reflexivity]. }
    rewrite P, andb_true_r.
    destruct (Ascii.eqb_spec c "0") as [->|Hc].
    + destruct (IH AW ltac:(discriminate)) as (j & W' & E & N' & T).
      exists (S j), W'. rewrite E at 1. repeat split; assumption.
    + exists 0%nat, (c :: d :: W2). repeat split. discriminate.
Qed.

Lemma rev_zeros (k : nat) : rev (repeat "0"%char k) = repeat "0"%char k.
Proof.
  induction k as [|k IH]; [reflexivity|].
  cbn [repeat rev]. rewrite IH. symmetry. apply repeat_cons.
Qed.

Lemma trim_decimal_point (W F : chars) :
  all_digits F -> F <> [] ->
  exists j F', F = F' ++ repeat "0"%char j /\ F' <> []
               /\ trim_decimal (W ++ "."%char :: F) = W ++ "."%char :: F'.
Proof.
  intros A N. unfold trim_decimal.
  assert (R : rev (W ++ "."%char :: F) = rev F ++ "."%char :: rev W).
  { rewrite rev_app_distr. cbn [rev]. rewrite <- app_assoc. reflexivity. }
  rewrite R.
  destruct (trim_whole_point (rev F) (rev W)) as (j & G & E & NG & T).
  { apply Forall_rev. assumption. }
  { intros Z. apply (f_equal (@rev ascii)) in Z. rewrite rev_involutive in Z.
    contradiction. }
  exists j, (rev G). repeat split.
  - rewrite <- (rev_involutive F), E, rev_app_distr, rev_zeros. reflexivity.
  - intros Z. apply (f_equal (@rev ascii)) in Z. rewrite rev_involutive in Z.
    contradiction.
  - rewrite T, rev_app_distr. cbn [rev]. rewrite rev_involutive, <- app_assoc.
    reflexivity.
Qed.

(** The text of a non-negative amount with 18 decimals: digits, a point,
    digits; read as a decimal fraction it is the amount over [10^18]. *)
Lemma toString_nonneg (n : Z) :
  0 <= n ->
  exists W F j,
    toString n 18 = W ++ "."%char :: F
    /\ all_digits W /\ W <> [] /\ all_digits F /\ F <> []
    /\ (List.length F + j = 18)%nat
    /\ value (W ++ F) * 10 ^ Z.of_nat j = n.
Proof.
  intros Hn. unfold toString, bigint_toString. cbv zeta.
  destruct (Z.ltb_spec n 0) as [|_]; [lia|].
  destruct (Z.ltb_spec n 0) as [|_]; [lia|].
  cbn [Nat.eqb app].
  destruct (digits_spec n Hn) as (Ad & Nd & Vd).
  destruct (pad_whole_spec (digits n) 18) as (k & E & L).
  set (str := pad_whole (digits n) 18) in *.
  set (index := (List.length str - 18)%nat).
  assert (As : all_digits str).
  { rewrite E. apply Forall_app. split; [apply zeros_digits|assumption]. }
  assert (Vs : value str = n) by (rewrite E, value_leading_zeros; assumption).
  pose proof (firstn_skipn index str) as Sp.
  assert (LF : List.length (skipn index str) = 18%nat)
    by (rewrite length_skipn; unfold index; lia).
  assert (LW : List.length (firstn index str) <> 0%nat)
    by (rewrite length_firstn; unfold index; lia).
  set (W0 := firstn index str) in *. set (F0 := skipn index str) in *.
  rewrite <- Sp in As, Vs. apply Forall_app in As as [AW AF].
  destruct (trim_whole_point W0 F0 AW) as (j0 & W' & EW & NW & TW).
  { intros Z. rewrite Z in LW. contradiction. }
  rewrite TW.
  destruct (trim_decimal_point W' F0 AF) as (j & F' & EF & NF & TF).
  { intros Z. rewrite Z in LF. discriminate. }
  rewrite TF. exists W', F', j.
  rewrite EW in AW. apply Forall_app in AW as [_ AW'].
  pose proof AF as AF0. rewrite EF in AF0. apply Forall_app in AF0 as [AF' _].
  repeat split; try assumption.
  - rewrite EF, length_app, repeat_length in LF. assumption.
  - rewrite <- Vs, EW, EF.
    rewrite (value_app (_ ++ W')), value_leading_zeros, value_trailing_zeros.
    rewrite value_app, length_app, repeat_length, Nat2Z.inj_add.
    rewrite Z.pow_add_r by lia. ring.
Qed.

Lemma toString_neg (n : Z) (d : nat) :
  n < 0 -> d <> 0%nat -> toString n d = "-"%char :: toString (- n) d.
Proof.
  intros Hn Hd. unfold toString.
  destruct (Z.ltb_spec n 0) as [_|]; [|lia].
  destruct (Z.ltb_spec (- n) 0) as [|_]; [lia|].
  replace (n * -1) with (- n) by lia.
  destruct (Nat.eqb_spec d 0); [contradiction|]. reflexivity.
Qed.


Lemma digit_not_space (c : ascii) : is_digit c = true -> is_space c = false.
Proof.
  intros H. apply digit_cases in H. simpl in H.
  repeat (destruct H as [<-|H]; [reflexivity|]). contradiction.
Qed.

Lemma trim_start_id (c : ascii) (s : chars) :
  is_space c = false -> trim_start (c :: s) = c :: s.
Proof. intros H. cbn [trim_start]. rewrite H. reflexivity. Qed.

Lemma span_digits_app (ds rest : chars) :
  all_digits ds ->
  match rest with c :: _ => is_digit c = false | [] => True end ->
  span_digits (ds ++ rest) = (ds, rest).
Proof.
  intros A R. induction A as [|c ds Dc A IH].
  - destruct rest as [|c r]; [reflexivity|]. cbn [app span_digits].
    rewrite R. reflexivity.
  - cbn [app span_digits]. rewrite Dc, IH. reflexivity.
Qed.

Lemma signed_decimal_digit (c : ascii) (s : chars) :
  is_digit c = true -> signed_decimal (c :: s) = unsigned_decimal false (c :: s).
Proof.
  intros H. apply digit_cases in H. simpl in H.
  repeat (destruct H as [<-|H]; [reflexivity|]). contradiction.
Qed.

(** Reading digits, a point and digits without a sign. *)
Lemma unsigned_decimal_fixed (neg : bool) (W F : chars) :
  all_digits W -> W <> [] -> all_digits F -> F <> [] ->
  unsigned_decimal neg (W ++ "."%char :: F)
  = Some (Float64.round neg (value (W ++ F)) (10 ^ Z.of_nat (List.length F))).
Proof.
  intros AW NW AF NF. unfold unsigned_decimal.
  assert (NotInf : chars_eqb (W ++ "."%char :: F) (list_ascii_of_string "Infinity")
              = false).
  { destruct W as [|c W]; [contradiction|]. inversion AW; subst.
    unfold chars_eqb. cbn [app string_of_list_ascii list_ascii_of_string String.eqb].
    rewrite (digit_differs c "I") by (assumption || reflexivity). reflexivity. }
  rewrite NotInf.
  rewrite (span_digits_app W ("."%char :: F) AW) by reflexivity.
  cbn [starts_with_point tl]. rewrite Ascii.eqb_refl.
  rewrite <- (app_nil_r F) at 1. rewrite (span_digits_app F [] AF Logic.I).
  destruct (Nat.eqb_spec (List.length W + List.length F) 0) as [Z|_].
  { destruct F; [contradiction|simpl in Z; lia]. }
  cbn [exponent_part]. unfold decimal.
  destruct (Z.leb_spec 0 (0 - Z.of_nat (List.length F))) as [L|_].
  { destruct F; [contradiction|]. cbn [List.length] in L. lia. }
  do 3 f_equal. lia.
Qed.

(** [Number] on the text of an amount. *)
Lemma Number_fixed (neg : bool) (W F : chars) :
  all_digits W -> W <> [] -> all_digits F -> F <> [] ->
  Number (string_of_list_ascii
            ((if neg then ["-"%char] else []) ++ W ++ "."%char :: F))
  = Float64.round neg (value (W ++ F)) (10 ^ Z.of_nat (List.length F)).
Proof.
  intros AW NW AF NF. unfold Number.
  rewrite list_ascii_of_string_of_list_ascii.
  set (body := W ++ "."%char :: F).
  assert (T : trim ((if neg then ["-"%char] else []) ++ body)
              = (if neg then ["-"%char] else []) ++ body).
  { unfold trim.
    assert (E1 : trim_start ((if neg then ["-"%char] else []) ++ body)
                 = (if neg then ["-"%char] else []) ++ body).
    { destruct neg; [reflexivity|]. unfold body.
      destruct W as [|c W]; [contradiction|]. inversion AW; subst.
      apply trim_start_id, digit_not_space. assumption. }
    rewrite E1.
    assert (E2 : exists c G, rev ((if neg then ["-"%char] else []) ++ body)
                             = c :: G /\ is_digit c = true).
    { unfold body. rewrite app_assoc, rev_app_distr. cbn [rev].
      rewrite <- app_assoc.
      pose proof (Forall_rev AF) as AR.
      destruct (rev F) as [|c G] eqn:RF.
      - apply (f_equal (@rev ascii)) in RF. rewrite rev_involutive in RF.
        contradiction.
      - inversion AR; subst. eexists _, _. split; [reflexivity|assumption]. }
    destruct E2 as (c & G & E2 & Dc). rewrite E2.
    rewrite trim_start_id by (apply digit_not_space; assumption).
    rewrite <- E2, rev_involutive. reflexivity. }
  rewrite T.
  pose proof (unsigned_decimal_fixed neg W F AW NW AF NF) as U. fold body in U.
  destruct neg.
  - cbn [app signed_decimal]. rewrite U. reflexivity.
  - cbn [app]. unfold body in *.
    destruct W as [|c W]; [contradiction|]. inversion AW; subst.
    cbn [app] in *. rewrite signed_decimal_digit by assumption. rewrite U.
    reflexivity.
Qed.

Import Float64Facts.

Lemma in_range_512 (v : Z) :
  in_range v 512 = true <-> - 2 ^ 511 <= v < 2 ^ 511.
Proof.
  unfold in_range. change (Z.shiftl 1 (512 - 1)) with (2 ^ 511).
  rewrite andb_true_iff, Z.leb_le, Z.ltb_lt. reflexivity.
Qed.

(** The comparison of [preValidate], on the text [formatEther] prints, is
    the comparison of the balance in wei with [10^16]. *)
Lemma balance_check (wei : Z) :
  - 2 ^ 511 <= wei < 2 ^ 511 ->
  exists ethBalance,
    formatEther wei = inr ethBalance
    /\ Float64.ltb (Number ethBalance) (Float64.literal 1 (-2))
       = (wei <? 10 ^ 16).
Proof.
  intros R. unfold formatEther, formatUnits.
  rewrite (proj2 (in_range_512 wei) R).
  eexists. split; [reflexivity|]. rewrite literal_min_eth.
  change (10 ^ 16) with 10000000000000000.
  destruct (Z_lt_le_dec wei 0) as [Neg|Pos].
  - rewrite toString_neg by (lia || discriminate).
    destruct (toString_nonneg (- wei) ltac:(lia)) as (W & F & j & E & AW & NW & AF & NF & L & V).
    rewrite E. pose proof (Number_fixed true W F AW NW AF NF) as N.
    cbn [app] in N. rewrite N.
    destruct (Z.ltb_spec wei 10000000000000000); [|lia].
    pose proof (Z.pow_pos_nonneg 10 (Z.of_nat j) ltac:(lia) ltac:(lia)).
    apply round_neg_lt_min; [nia|]. apply Z.pow_pos_nonneg; lia.
  - destruct (toString_nonneg wei Pos) as (W & F & j & E & AW & NW & AF & NF & L & V).
    rewrite E. pose proof (Number_fixed false W F AW NW AF NF) as N.
    cbn [app] in N. rewrite N.
    set (p := value (W ++ F)) in *. set (q := 10 ^ Z.of_nat (List.length F)).
    pose proof (Z.pow_pos_nonneg 10 (Z.of_nat j) ltac:(lia) ltac:(lia)) as Pj.
    assert (Pq : 0 < q) by (apply Z.pow_pos_nonneg; lia).
    assert (Q : q * 10 ^ Z.of_nat j = 1000000000000000000).
    { unfold q. rewrite <- Z.pow_add_r by lia. rewrite <- Nat2Z.inj_add, L.
      reflexivity. }
    destruct (Z.ltb_spec wei 10000000000000000) as [Lt|Ge].
    + apply round_lt_min; [nia|assumption|].
      change (10 ^ 18) with 1000000000000000000.
      change (10 ^ 16 - 1) with 9999999999999999. nia.
    + apply round_ge_min; [assumption|]. nia.
Qed.

Lemma formatEther_overflow (wei : Z) :
  ~ (- 2 ^ 511 <= wei < 2 ^ 511) -> formatEther wei = inl overflow.
Proof.
  intros R. unfold formatEther, formatUnits.
  destruct (in_range wei 512) eqn:E; [|reflexivity].
  apply in_range_512 in E. contradiction.
Qed.
End TextFacts.

(** The run of a sequence is the run of its first part followed, when that
    part returns, by the run of the rest. *)
Lemma run_bind {A B : Type} (w : world) (p : prog A) (f : A -> prog B) :
  run w (bind p f)
  = match run w p with
    | (t, inl e) => (t, inl e)
    | (t, inr a) => let (t', o) := run w (f a) in (t ++ t', o)
    end.
Proof.
  revert B f.
  induction p as [A a|A e|A args k IH|A c a k IH|A o k IH|A c k IH|A c q k IH
                 |A c wc d cb _ k IH]; intros B f; cbn [bind run].
  - destruct (run w (f a)). reflexivity.
  - reflexivity.
  - rewrite IH. unfold after. destruct (run w k) as [t [e|a]]; cbn [fst snd].
    + reflexivity.
    + destruct (run w (f a)). reflexivity.
  - unfold answered. destruct (rpc_getBalance w c a) as [e|v]; [reflexivity|].
    rewrite IH. unfold after. destruct (run w (k v)) as [t [e|x]]; cbn [fst snd].
    + reflexivity.
    + destruct (run w (f x)). reflexivity.
  - rewrite IH. unfold after.
    destruct (run w (k _)) as [t [e|x]]; cbn [fst snd].
    + reflexivity.
    + destruct (run w (f x)). reflexivity.
  - unfold answered. destruct (across_getSupportedChains w c) as [e|v]; [reflexivity|].
    rewrite IH. unfold after. destruct (run w (k v)) as [t [e|x]]; cbn [fst snd].
    + reflexivity.
    + destruct (run w (f x)). reflexivity.
  - unfold answered. destruct (across_getQuote w c q) as [e|v]; [reflexivity|].
    rewrite IH. unfold after. destruct (run w (k v)) as [t [e|x]]; cbn [fst snd].
    + reflexivity.
    + destruct (run w (f x)). reflexivity.
  - destruct (across_executeQuote w c wc d) as [ps answer].
    destruct (deliver _ ps) as [t [e|[]]]; [reflexivity|].
    destruct answer as [e|r]; [reflexivity|].
    rewrite IH. destruct (run w (k r)) as [t' [e|x]].
    + reflexivity.
    + destruct (run w (f x)) as [t'' o]. rewrite app_comm_cons, !app_assoc.
      reflexivity.
Qed.

(** ** Runs *)

Local Open Scope string_scope.
Local Open Scope list_scope.

Arguments Text.formatEther : simpl never.
Arguments Text.parseEther : simpl never.
Arguments Text.Number : simpl never.
Arguments Float64.ltb : simpl never.
Arguments Float64.literal : simpl never.

Lemma run_log (w : world) (args : list jsval) :
  run w (log args) = ([ConsoleLog args], inr tt).
Proof. reflexivity. Qed.

Lemma run_lift {A : Type} (w : world) (r : exn + A) : run w (lift r) = ([], r).
Proof. destruct r; reflexivity. Qed.

Lemma run_property {A B : Type} (w : world) (o : option A) (prop : string)
  (get : A -> B) :
  run w (property o prop get)
  = match o with
    | Some a => ([], inr (get a))
    | None => ([], inl (undefined_read prop))
    end.
Proof. destruct o; reflexivity. Qed.

(** One step of running a program symbolically: split a sequence, reduce the
    run of a call, or branch on an answer of the world or a test of the
    program. *)
Ltac run_step :=
  first
    [ rewrite run_bind
    | rewrite run_lift
    | rewrite run_property
    | progress unfold answered, after
    | progress cbn [run log lift fst snd app]
    | match goal with
      | |- context [match ?x with inl _ => _ | inr _ => _ end] =>
          destruct x eqn:?
      | |- context [if ?b then _ else _] => destruct b eqn:?
      | |- context [match ?x with Some _ => _ | None => _ end] =>
          destruct x eqn:?
      end ].

Ltac run_all := repeat run_step; try reflexivity.

Lemma preValidate_run (w : world) (g : globals) :
  run w (preValidate g)
  = let asked :=
      [ConsoleLog [Str "Validating balance of wallet with pub key: ";
                   getPubKey (env g)];
       GetBalance (publicClient g) (getPubKey (env g))] in
    match rpc_getBalance w (publicClient g) (getPubKey (env g)) with
    | inl e => (asked, inl e)
    | inr wei =>
        match Text.formatEther wei with
        | inl e => (asked ++ [ConsoleLog [Str "wei balance: "; Big wei]], inl e)
        | inr eth =>
            let shown :=
              asked ++ [ConsoleLog [Str "wei balance: "; Big wei];
                        ConsoleLog [Str "Balance in ETH:"; Str eth]] in
            if Float64.ltb (Text.Number eth) (Float64.literal 1 (-2))
            then (shown ++ [ConsoleLog [Str "Insufficient funds... Exiting early"]],
                  inl InsufficientFundsError)
            else (shown, inr tt)
        end
    end.
Proof.
  unfold preValidate. run_all.
Qed.

(** The observer prints one line and returns, unless it is handed a
    notification it has no line for: then [JSON.stringify] throws and
    nothing is printed. *)
Lemma onProgressCallback_run (im : imports) (w : world) (p : ExecutionProgress) :
  (printable p = true
   /\ exists args, run w (onProgressCallback im p) = ([ConsoleLog args], inr tt))
  \/ (printable p = false
      /\ run w (onProgressCallback im p) = ([], inl not_serializable)).
Proof.
  unfold onProgressCallback, printable, known_step, JSON_stringify.
  destruct (status p =? "txSuccess"); cbn [negb orb];
    [|left; split; [reflexivity|eexists; reflexivity]].
  destruct (step p =? "approve"); cbn [orb];
    [left; split; [reflexivity|eexists; reflexivity]|].
  destruct (step p =? "deposit"); cbn [orb];
    [left; split; [reflexivity|eexists; reflexivity]|].
  destruct (step p =? "fill"); cbn [orb];
    [left; split; [reflexivity|eexists; reflexivity]|].
  destruct (has_bigint (progress_object p)); cbn [negb].
  - right. split; reflexivity.
  - left. split; [reflexivity|eexists; reflexivity].
Qed.

(** Handing notifications to the observer adds log lines and nothing
    else. *)
Lemma delivered_quiet (im : imports) (w : world) (ps : list ExecutionProgress) :
  Forall (fun e => is_network e = false) (fst (deliver (observer im w) ps)).
Proof.
  induction ps as [|p ps IH]; [constructor|].
  cbn [deliver]. unfold observer at 1.
  destruct (onProgressCallback_run im w p) as [[_ [args ->]]|[_ ->]].
  - destruct (deliver (observer im w) ps) as [t o]. cbn [fst] in *.
    repeat constructor. assumption.
  - repeat constructor.
Qed.

(** When every notification is one the observer has a line for, all of
    them are handled. *)
Lemma delivered_printable (im : imports) (w : world)
  (ps : list ExecutionProgress) :
  forallb printable ps = true -> snd (deliver (observer im w) ps) = inr tt.
Proof.
  induction ps as [|p ps IH]; [reflexivity|].
  cbn [forallb]. intros H. apply andb_prop in H as [Hp Hps].
  cbn [deliver]. unfold observer at 1.
  destruct (onProgressCallback_run im w p) as [[_ [args ->]]|[N _]];
    [|rewrite N in Hp; discriminate Hp].
  specialize (IH Hps). destruct (deliver (observer im w) ps) as [t o].
  assumption.
Qed.

Lemma conclusion_quiet (im : imports) (handled : outcome unit)
  (answer : exn + ExecuteQuoteResponseParams) :
  Forall (fun e => is_network e = false) (fst (conclusion im handled answer)).
Proof.
  unfold conclusion. destruct handled as [e|u]; [constructor|].
  destruct answer as [e|r]; [constructor|].
  destruct (error r); [repeat constructor|].
  destruct (has_bigint (result_object r)); repeat constructor.
Qed.

Lemma quiet_calls (t : trace) :
  Forall (fun e => is_network e = false) t -> network_calls t = [].
Proof.
  induction 1 as [|e t He _ IH]; [reflexivity|].
  unfold network_calls in *. cbn [filter]. rewrite He. assumption.
Qed.

Lemma quiet_execution (t : trace) :
  Forall (fun e => is_network e = false) t -> after_execution t = None.
Proof.
  induction 1 as [|e t He _ IH]; [reflexivity|].
  destruct e; try discriminate; assumption.
Qed.

Lemma network_calls_app (a b : trace) :
  network_calls (a ++ b) = network_calls a ++ network_calls b.
Proof. apply filter_app. Qed.

Lemma after_execution_app (a b : trace) :
  after_execution a = None -> after_execution (a ++ b) = after_execution b.
Proof.
  induction a as [|e a IH]; [reflexivity|].
  destruct e; cbn [after_execution app]; try assumption. discriminate.
Qed.

(** The execution call of [bridge] and what follows it. *)
Lemma execute_run (im : imports) (w : world) (c : AcrossClient)
  (wc : WalletClient) (d : Deposit) :
  run w (bind (client_executeQuote c wc d (onProgressCallback im) Ret)
           (fun bridgeResult =>
              match error bridgeResult with
              | Some e => log [Str "Bridge failed with error: "; Err e]
              | None =>
                  bind (lift (JSON_stringify im (result_object bridgeResult)))
                    (fun text => log [Str text])
              end))
  = let (ps, answer) := across_executeQuote w c wc d in
    (ExecuteQuote c wc d
       :: fst (deliver (observer im w) ps)
       ++ fst (conclusion im (snd (deliver (observer im w) ps)) answer),
     snd (conclusion im (snd (deliver (observer im w) ps)) answer)).
Proof.
  rewrite run_bind. cbn [run].
  destruct (across_executeQuote w c wc d) as [ps answer].
  change (fun p => run w (onProgressCallback im p)) with (observer im w).
  destruct (deliver (observer im w) ps) as [t [e|[]]]; cbn [fst snd conclusion];
    [rewrite app_nil_r; reflexivity|].
  destruct answer as [e|r]; [rewrite app_nil_r; reflexivity|].
  cbn [run app]. rewrite app_nil_r. unfold error_line, success_line.
  destruct (error r); [reflexivity|].
  rewrite run_bind, run_lift. unfold JSON_stringify.
  destruct (has_bigint (result_object r)); cbn [fst snd];
    [rewrite app_nil_r|]; reflexivity.
Qed.

(** The run of [bridge], from the runs of its parts. *)
Lemma bridge_steps (im : imports) (w : world) (g : globals) :
  run w (bridge im g)
  = match run w (preValidate g) with
    | (t, inl e) => (t, inl e)
    | (t, inr _) =>
        match run w (getQuote im bridge_client) with
        | (t', inl e) =>
            (t ++ CreateAcrossClient (options bridge_client) :: t', inl e)
        | (t', inr quote) =>
            let (ps, answer) :=
              across_executeQuote w bridge_client (walletClient g)
                (deposit quote) in
            (t ++ CreateAcrossClient (options bridge_client)
               :: t'
               ++ ExecuteQuote bridge_client (walletClient g) (deposit quote)
               :: fst (deliver (observer im w) ps)
               ++ fst (conclusion im (snd (deliver (observer im w) ps)) answer),
             snd (conclusion im (snd (deliver (observer im w) ps)) answer))
        end
    end.
Proof.
  unfold bridge. rewrite run_bind.
  destruct (run w (preValidate g)) as [t [e|[]]]; [reflexivity|].
  rewrite run_bind. cbn [run]. unfold after. cbn [fst snd app].
  rewrite run_bind. change {| options := _ |} with bridge_client.
  destruct (run w (getQuote im bridge_client)) as [t' [e|quote]]; [reflexivity|].
  rewrite execute_run.
  destruct (across_executeQuote w bridge_client (walletClient g) (deposit quote))
    as [ps answer].
  reflexivity.
Qed.

Lemma preValidate_calls (w : world) (g : globals) :
  network_calls (fst (run w (preValidate g)))
  = [GetBalance (publicClient g) (getPubKey (env g))]
  /\ after_execution (fst (run w (preValidate g))) = None.
Proof.
  rewrite preValidate_run. cbv zeta.
  destruct (rpc_getBalance w _ _) as [e|wei]; [split; reflexivity|].
  destruct (Text.formatEther wei) as [e|eth]; [split; reflexivity|].
  destruct (Float64.ltb _ _); split; reflexivity.
Qed.

(** The network calls of [getQuote]: the supported-chains query and, when
    the lookups resolve, one quote request; a quote is returned only as
    the answer to that request. *)
Lemma getQuote_calls (im : imports) (w : world) (c : AcrossClient)
  (t : trace) (o : outcome Quote) :
  run w (getQuote im c) = (t, o) ->
  after_execution t = None
  /\ match o with
     | inl _ =>
         network_calls t = [GetSupportedChains c]
         \/ exists params, network_calls t = [GetSupportedChains c; GetQuote c params]
     | inr quote =>
         exists params,
           across_getQuote w c params = inr quote
           /\ network_calls t = [GetSupportedChains c; GetQuote c params]
     end.
Proof.
  unfold getQuote.
  set (amount := Text.parseEther "0.0002") in *. clearbody amount.
  destruct o as [e|quote].
  all: repeat run_step; intros H; try discriminate H; injection H as <- <-.
  all: split; [reflexivity|].
  all: first [ left; reflexivity
             | right; eexists; reflexivity
             | eexists; split; [eassumption|reflexivity] ].
Qed.

(** Every run of [bridge] has one of the four shapes of [bridge_run]. *)
Lemma bridge_shape (im : imports) (w : world) (g : globals) :
  bridge_run im w g (run w (bridge im g)).
Proof.
  rewrite bridge_steps.
  destruct (preValidate_calls w g) as [PC PA].
  destruct (run w (preValidate g)) as [t [e|[]]] eqn:P; cbn [fst snd] in *.
  { apply stopped_at_balance; [rewrite P; reflexivity|assumption|assumption]. }
  destruct (run w (getQuote im bridge_client)) as [t' [e|quote]] eqn:Q;
    destruct (getQuote_calls im w bridge_client _ _ Q) as [QA QC].
  { assert (A : after_execution
                  (t ++ CreateAcrossClient (options bridge_client) :: t') = None).
    { rewrite (after_execution_app _ _ PA). assumption. }
    destruct QC as [C|[params C]].
    - apply stopped_at_chains; [rewrite P; reflexivity|rewrite Q; reflexivity| |exact A].
      rewrite network_calls_app, PC.
      change (network_calls (CreateAcrossClient (options bridge_client) :: t'))
        with (network_calls t').
      rewrite C. reflexivity.
    - apply (stopped_at_quote im w g _ _ params);
        [rewrite P; reflexivity|rewrite Q; reflexivity| |exact A].
      rewrite network_calls_app, PC.
      change (network_calls (CreateAcrossClient (options bridge_client) :: t'))
        with (network_calls t').
      rewrite C. reflexivity. }
  destruct QC as (params & G & C).
  destruct (across_executeQuote w bridge_client (walletClient g) (deposit quote))
    as [ps answer] eqn:X.
  apply (executed im w g _ params quote ps answer);
    [rewrite P; reflexivity|rewrite Q; reflexivity|exact G|exact X| |].
  - rewrite network_calls_app, PC.
    change (network_calls (CreateAcrossClient (options bridge_client) :: ?x))
      with (network_calls x).
    rewrite network_calls_app, C.
    change (network_calls (ExecuteQuote ?a ?b ?c :: ?x))
      with (ExecuteQuote a b c :: network_calls x).
    rewrite network_calls_app, (quiet_calls _ (delivered_quiet im w ps)),
      (quiet_calls _ (conclusion_quiet im _ answer)).
    reflexivity.
  - rewrite (after_execution_app _ _ PA).
    change (after_execution (CreateAcrossClient (options bridge_client) :: ?x))
      with (after_execution x).
    rewrite (after_execution_app _ _ QA). reflexivity.
Qed.

(** The module body: the start-up lines, then the account, then [bridge]. *)
Lemma main_run (im : imports) (w : world) (e : environment) :
  run w (main im e)
  = match privateKeyToAccount im ("0x" ++ interpolate (PRIVATE_KEY e))%string with
    | inl err => (startup_lines e, inl err)
    | inr a =>
        let (t, o) := run w (bridge im (globals_of im e a)) in
        (startup_lines e ++ t, o)
    end.
Proof.
  unfold main. repeat run_step.
  - reflexivity.
  - unfold globals_of. destruct (run w (bridge im _)). reflexivity.
Qed.

Lemma parseEther_amount : Text.parseEther "0.0002" = inr 200000000000000.
Proof. vm_compute. reflexivity. Qed.

Lemma calls_executions (t : trace) : executions (network_calls t) = executions t.
Proof.
  induction t as [|e t IH]; [reflexivity|].
  destruct e; cbn [network_calls filter is_network executions flat_map app] in *;
    try assumption.
  f_equal. assumption.
Qed.

Lemma calls_quote_requests (t : trace) :
  quote_requests (network_calls t) = quote_requests t.
Proof.
  induction t as [|e t IH]; [reflexivity|].
  destruct e; cbn [network_calls filter is_network quote_requests flat_map app] in *;
    try assumption.
  f_equal. assumption.
Qed.

Lemma calls_balance_queries (t : trace) :
  balance_queries (network_calls t) = balance_queries t.
Proof.
  induction t as [|e t IH]; [reflexivity|].
  destruct e; cbn [network_calls filter is_network balance_queries flat_map app] in *;
    try assumption.
  f_equal. assumption.
Qed.

Lemma calls_startup (e : environment) (t : trace) :
  network_calls (startup_lines e ++ t) = network_calls t.
Proof. reflexivity. Qed.

Lemma getQuote_starts (im : imports) (w : world) (c : AcrossClient) :
  exists rest o, run w (getQuote im c) = (GetSupportedChains c :: rest, o).
Proof.
  unfold getQuote. rewrite run_bind. cbn [run]. unfold answered, after.
  destruct (across_getSupportedChains w c) as [e|cs]; [eexists _, _; reflexivity|].
  cbn [run fst snd]. destruct (run w _) as [t o]. eexists _, _. reflexivity.
Qed.

Import TextFacts.

(** Claim C1.  Whenever the origin chain's node reports a balance strictly
    below [10^16] wei (0.01 ether), [bridge] prints the balance and the
    "Insufficient funds" line and ends with [InsufficientFundsError]: the
    run consists of the five calls listed, so no Across client is built,
    no supported-chains or quote request is sent and nothing is executed.
    (The lower bound is the range [formatEther] accepts; a balance is
    never negative.) *)
Theorem insufficient_balance_aborts (im : imports) (w : world) (g : globals)
  (wei : Z) :
  rpc_getBalance w (publicClient g) (getPubKey (env g)) = inr wei ->
  - 2 ^ 511 <= wei < 10 ^ 16 ->
  exists ethBalance,
    Text.formatEther wei = inr ethBalance
    /\ run w (bridge im g)
       = ([ConsoleLog [Str "Validating balance of wallet with pub key: ";
                       getPubKey (env g)];
           GetBalance (publicClient g) (getPubKey (env g));
           ConsoleLog [Str "wei balance: "; Big wei];
           ConsoleLog [Str "Balance in ETH:"; Str ethBalance];
           ConsoleLog [Str "Insufficient funds... Exiting early"]],
          inl InsufficientFundsError)
    /\ filter is_bridging (fst (run w (bridge im g))) = [].
Proof.
  intros Hb Hw.
  destruct (balance_check wei) as (eth & Hf & Hlt).
  { assert (10 ^ 16 < 2 ^ 511) by reflexivity. lia. }
  rewrite (proj2 (Z.ltb_lt wei (10 ^ 16)) (proj2 Hw)) in Hlt.
  exists eth. split; [assumption|].
  assert (R : run w (bridge im g)
              = ([ConsoleLog [Str "Validating balance of wallet with pub key: ";
                              getPubKey (env g)];
                  GetBalance (publicClient g) (getPubKey (env g));
                  ConsoleLog [Str "wei balance: "; Big wei];
                  ConsoleLog [Str "Balance in ETH:"; Str eth];
                  ConsoleLog [Str "Insufficient funds... Exiting early"]],
                 inl InsufficientFundsError)).
  { unfold bridge. rewrite run_bind, preValidate_run. cbv zeta.
    rewrite Hb, Hf, Hlt. reflexivity. }
  rewrite R. split; reflexivity.
Qed.

(** Claim C2.  Whenever the reported balance is at least [10^16] wei
    (0.01 ether, equality included) the precheck returns normally and
    [bridge] goes on to build the client and ask for the supported
    chains.  The test is made on [Number] of the decimal text that
    [formatEther] prints for the balance, against the literal [0.01].
    (The upper bound is the range [formatEther] accepts; it lies far above
    any 256-bit balance.) *)
Theorem sufficient_balance_proceeds (im : imports) (w : world) (g : globals)
  (wei : Z) :
  rpc_getBalance w (publicClient g) (getPubKey (env g)) = inr wei ->
  10 ^ 16 <= wei < 2 ^ 511 ->
  exists ethBalance,
    Text.formatEther wei = inr ethBalance
    /\ Float64.ltb (Text.Number ethBalance) (Float64.literal 1 (-2)) = false
    /\ run w (preValidate g)
       = ([ConsoleLog [Str "Validating balance of wallet with pub key: ";
                       getPubKey (env g)];
           GetBalance (publicClient g) (getPubKey (env g));
           ConsoleLog [Str "wei balance: "; Big wei];
           ConsoleLog [Str "Balance in ETH:"; Str ethBalance]],
          inr tt)
    /\ exists rest o,
         run w (bridge im g)
         = (fst (run w (preValidate g))
            ++ CreateAcrossClient (options bridge_client)
            :: GetSupportedChains bridge_client :: rest, o).
Proof.
  intros Hb Hw.
  destruct (balance_check wei) as (eth & Hf & Hlt).
  { assert (10 ^ 16 < 2 ^ 511) by reflexivity. lia. }
  rewrite (proj2 (Z.ltb_ge wei (10 ^ 16)) (proj1 Hw)) in Hlt.
  exists eth. split; [assumption|]. split; [assumption|].
  assert (R : run w (preValidate g)
              = ([ConsoleLog [Str "Validating balance of wallet with pub key: ";
                              getPubKey (env g)];
                  GetBalance (publicClient g) (getPubKey (env g));
                  ConsoleLog [Str "wei balance: "; Big wei];
                  ConsoleLog [Str "Balance in ETH:"; Str eth]],
                 inr tt)).
  { rewrite preValidate_run. cbv zeta. rewrite Hb, Hf, Hlt. reflexivity. }
  split; [assumption|].
  unfold bridge. rewrite run_bind, R. cbn [fst].
  rewrite run_bind. cbn [run]. unfold after. cbn [fst snd].
  rewrite run_bind.
  destruct (getQuote_starts im w bridge_client) as (rest & o & Q).
  change {| options := _ |} with bridge_client. rewrite Q.
  destruct o as [e|q].
  - eexists _, _. reflexivity.
  - match goal with
    | |- context [run w (bind ?p ?f)] => destruct (run w (bind p f)) as [t' o']
    end.
    eexists _, _. reflexivity.
Qed.

(** Use what is known of an answer instead of branching on it. *)
Ltac use_answer :=
  match goal with
  | |- context [match ?x with inl _ => _ | inr _ => _ end] =>
      match goal with E : x = _ |- _ => rewrite E end
  | |- context [match ?x with Some _ => _ | None => _ end] =>
      match goal with E : x = _ |- _ => rewrite E end
  end.

Ltac run_known := repeat (first [use_answer | run_step]).

(** Claim C3, on the code.  The claim asks for a named [ChainNotFound] /
    [TokenNotFound] error; the code has no check of a lookup's result.
    When the supported-chains response lacks the origin chain, the origin
    token, the destination chain or the destination token, [getQuote]
    stops right after the supported-chains call, before any quote
    request, with the [TypeError] of reading a property of [undefined]:
    ['inputTokens'] when a chain entry is missing, ['address'] when both
    chains are there and a token is missing. *)
Theorem missing_lookup_is_a_TypeError (im : imports) (w : world)
  (c : AcrossClient)
  (cs : ChainsQueryResponse) :
  across_getSupportedChains w c = inr cs ->
  resolved cs = None ->
  run w (getQuote im c)
  = ([GetSupportedChains c],
     inl (undefined_read
            match origin_entry cs, destination_entry cs with
            | Some _, Some _ => "address"
            | _, _ => "inputTokens"
            end)).
Proof.
  intros Hcs. unfold resolved, input_token, origin_entry, destination_entry, getQuote.
  rewrite run_bind. cbn [run]. unfold answered, after. rewrite Hcs. cbn [fst snd].
  repeat run_step. all: intros H; try discriminate H. all: reflexivity.
Qed.

(** With an empty supported-chains response the failure of [getQuote] is
    not an error named [ChainNotFound] or [TokenNotFound]. *)
Lemma missing_chain_not_named :
  ~ named_lookup_failure
      (snd (run (sample_world (10 ^ 18) [] None) (getQuote sample_imports bridge_client))).
Proof.
  intros (e & E & N). vm_compute in E. injection E as <-.
  destruct N as [N|N]; discriminate N.
Qed.

(** Claim C4.  When the response contains the origin chain (11155111)
    with an input token "ETH" and the destination chain (421614) with an
    input token "WETH", [getQuote] submits one quote request: its route is
    the two chain ids with the address of the origin entry as input token
    and the address of the destination entry as output token, and its
    input amount is [parseEther "0.0002"], that is [2 * 10^14] wei. *)
Theorem quote_request_route (im : imports) (w : world)
  (c : AcrossClient)
  (cs : ChainsQueryResponse) (oc dc : AcrossChain) (ot dt : TokenInfo) :
  across_getSupportedChains w c = inr cs ->
  origin_entry cs = Some oc ->
  input_token originTokenSymbol oc = Some ot ->
  destination_entry cs = Some dc ->
  input_token destTokenSymbol dc = Some dt ->
  exists rest o,
    run w (getQuote im c)
    = (GetSupportedChains c
       :: ConsoleLog [Str "Requesting quote from Across..."]
       :: GetQuote c {| route := {| originChainId := 11155111;
                                    destinationChainId := 421614;
                                    inputToken := token_address ot;
                                    outputToken := token_address dt |};
                        inputAmount := 2 * 10 ^ 14 |}
       :: rest, o)
    /\ quote_requests rest = []
    /\ Text.parseEther "0.0002" = inr (2 * 10 ^ 14).
Proof.
  unfold origin_entry, destination_entry, input_token.
  intros Hcs Hoc Hot Hdc Hdt. unfold getQuote.
  pose proof parseEther_amount as Hamount.
  set (amount := Text.parseEther "0.0002") in *. clearbody amount.
  run_known. all: eexists _, _. all: repeat split. all: reflexivity.
Qed.

(** Claim C10.  The output token of every route [getQuote] submits is the
    address of the first entry named "WETH" in the [inputTokens] list of
    the destination chain's entry; the [outputTokens] list plays no part,
    and without such an entry no route is submitted. *)
Theorem output_token_from_inputTokens (im : imports) (w : world)
  (c : AcrossClient)
  (cs : ChainsQueryResponse) (dc : AcrossChain) :
  across_getSupportedChains w c = inr cs ->
  destination_entry cs = Some dc ->
  forall p, In p (quote_requests (fst (run w (getQuote im c)))) ->
  exists dt,
    find (fun x => symbol x =? destTokenSymbol)%string (inputTokens dc) = Some dt
    /\ outputToken (route p) = token_address dt.
Proof.
  unfold destination_entry. intros Hcs Hdc p. unfold getQuote.
  run_known; cbn [quote_requests flat_map app In]; intros H;
    try contradiction.
  all: destruct H as [<-|[]]; eexists; split; reflexivity.
Qed.

(** Claim C5.  For a notification whose status is not ["txSuccess"] the
    observer prints the one line naming the failed step and returns
    normally: none of the lines for an approval receipt, a deposit id or a
    fill time is printed.  Nothing is aborted by it: the notifications
    that follow are handed to the observer and fare exactly as they would
    have without the failed one before them. *)
Theorem failed_step_only_logged (im : imports) (w : world)
  (progress : ExecutionProgress) :
  status progress <> "txSuccess"%string ->
  run w (onProgressCallback im progress)
  = ([ConsoleLog [Str ("Step '" ++ step progress ++ "' failed with status: "
                       ++ status progress)%string]],
     inr tt)
  /\ forall ps,
       deliver (observer im w) (progress :: ps)
       = (OnProgress progress
          :: ConsoleLog [Str ("Step '" ++ step progress
                              ++ "' failed with status: "
                              ++ status progress)%string]
          :: fst (deliver (observer im w) ps),
          snd (deliver (observer im w) ps)).
Proof.
  intros H.
  assert (R : run w (onProgressCallback im progress)
              = ([ConsoleLog [Str ("Step '" ++ step progress
                                   ++ "' failed with status: "
                                   ++ status progress)%string]], inr tt)).
  { unfold onProgressCallback.
    destruct (String.eqb_spec (status progress) "txSuccess"); [contradiction|].
    reflexivity. }
  split; [assumption|]. intros ps.
  cbn [deliver]. unfold observer at 1. rewrite R.
  destruct (deliver (observer im w) ps) as [t o]. reflexivity.
Qed.

(** Claim C6, as amended.  Without [PRIVATE_KEY] in the environment the run
    ends in the uncaught error that the key library raises while the
    account is built from the text ["0xundefined"]: a plain [Error], as
    for any other malformed key.  The script has no check of the secret
    and prints nothing about the failure; all it has done by then is
    print the five start-up lines, one of which shows the key as
    [undefined]: no balance query, no Across client, no quote, no
    execution. *)
Theorem missing_private_key_is_fatal (im : imports) (w : world)
  (e : environment) :
  PRIVATE_KEY e = None ->
  exists err,
    run w (main im e) = (startup_lines e, inl err)
    /\ name err = "Error"%string
    /\ In (ConsoleLog [Str "Loaded PK: "; Undefined]) (startup_lines e)
    /\ network_calls (startup_lines e) = []
    /\ filter is_bridging (startup_lines e) = [].
Proof.
  intros H. rewrite main_run, H. eexists. split; [reflexivity|].
  split; [reflexivity|]. split; [|split; reflexivity].
  unfold startup_lines. rewrite H. cbn. tauto.
Qed.

(** Claim C6, as stated, fails: with no [PRIVATE_KEY] the run does not end
    under a [MissingCredential] condition, and the last thing it prints is
    the line about the destination chain. *)
Lemma keyless_failure_is_not_a_MissingCredential :
  ~ missing_credential_failure
      (snd (run (sample_world (10 ^ 18) sample_chains None)
                (main sample_imports keyless_environment)))
  /\ last (fst (run (sample_world (10 ^ 18) sample_chains None)
                    (main sample_imports keyless_environment)))
          (ConsoleLog [])
     = ConsoleLog [Str "Destination chain selected: Arbitrum Sepolia"].
Proof.
  split; [|reflexivity].
  intros (e & E & N). vm_compute in E. injection E as <-. discriminate N.
Qed.

Lemma run_pair {A : Type} (w : world) (p : prog A) :
  run w p = (fst (run w p), snd (run w p)).
Proof. destruct (run w p). reflexivity. Qed.

(** Claim C7, on the code.  When the run reaches an execution, the
    observer handles the notifications and the call resolves to a result,
    that execution is the only one of the run (nothing is retried) and
    what follows is decided by the result's [error] field.  With an error
    the one line printed is the "Bridge failed" line and the run returns.
    Without one the code goes on to print [JSON.stringify] of the result:
    that is one line and a normal return when the result has no BigInt in
    it, and with a BigInt (a deposit id, say) [JSON.stringify] throws, no
    line is printed for the result and the run ends with that
    [TypeError]. *)
Theorem terminal_result_branches (im : imports) (w : world) (g : globals)
  (wc : WalletClient) (d : Deposit) (ps : list ExecutionProgress)
  (r : ExecuteQuoteResponseParams) :
  In (wc, d) (executions (fst (run w (bridge im g)))) ->
  across_executeQuote w bridge_client wc d = (ps, inr r) ->
  snd (deliver (observer im w) ps) = inr tt ->
  executions (fst (run w (bridge im g))) = [(wc, d)]
  /\ match error r with
     | Some e =>
         snd (run w (bridge im g)) = inr tt
         /\ after_execution (fst (run w (bridge im g)))
            = Some (fst (deliver (observer im w) ps)
                    ++ [ConsoleLog [Str "Bridge failed with error: "; Err e]])
     | None =>
         if has_bigint (result_object r) then
           snd (run w (bridge im g)) = inl not_serializable
           /\ after_execution (fst (run w (bridge im g)))
              = Some (fst (deliver (observer im w) ps))
         else
           snd (run w (bridge im g)) = inr tt
           /\ after_execution (fst (run w (bridge im g)))
              = Some (fst (deliver (observer im w) ps)
                      ++ [ConsoleLog [Str (JSON_text im (result_object r))]])
     end.
Proof.
  pose proof (bridge_shape im w g) as S.
  destruct (run w (bridge im g)) as [t o]. cbn [fst snd].
  intros Hin Hex Hd. rewrite <- (calls_executions t) in *.
  inversion S as [? ? _ C|? ? _ _ C|? ? ? _ _ C|? ? ? ? ? _ _ Q X C F]; subst;
    rewrite C in *; cbn [executions flat_map app In] in Hin;
    try contradiction.
  destruct Hin as [E|[]]. injection E as <- <-.
  rewrite X in Hex. injection Hex as <- ->.
  split; [reflexivity|]. rewrite F, Hd. unfold conclusion, error_line, success_line.
  destruct (error r); [split; reflexivity|].
  destruct (has_bigint (result_object r)); cbn [fst snd];
    [rewrite app_nil_r|]; split; reflexivity.
Qed.

(** Claim C8.  Whether a run executes anything is decided by the precheck
    and the quote step.  When the account is built, the precheck passes
    and the quote step returns a quote, the network calls of the run are,
    in this order and with nothing else, the balance query, the
    supported-chains query, one quote request, to which the service
    answered that quote, and one execution, which is handed the deposit of
    that quote.  In every other run nothing is executed. *)
Theorem quote_executed_once (im : imports) (w : world) (e : environment) :
  match privateKeyToAccount im ("0x" ++ interpolate (PRIVATE_KEY e))%string with
  | inl _ => executions (fst (run w (main im e))) = []
  | inr acct =>
      match snd (run w (preValidate (globals_of im e acct))),
            snd (run w (getQuote im bridge_client)) with
      | inr _, inr quote =>
          exists params,
            across_getQuote w bridge_client params = inr quote
            /\ network_calls (fst (run w (main im e)))
               = [GetBalance (publicClient (globals_of im e acct)) (getPubKey e);
                  GetSupportedChains bridge_client;
                  GetQuote bridge_client params;
                  ExecuteQuote bridge_client
                    (walletClient (globals_of im e acct)) (deposit quote)]
            /\ quote_requests (fst (run w (main im e))) = [params]
            /\ executions (fst (run w (main im e)))
               = [(walletClient (globals_of im e acct), deposit quote)]
      | _, _ => executions (fst (run w (main im e))) = []
      end
  end.
Proof.
  rewrite main_run.
  destruct (privateKeyToAccount im _) as [err|acct] eqn:K; [reflexivity|].
  pose proof (bridge_shape im w (globals_of im e acct)) as S.
  destruct (run w (bridge im (globals_of im e acct))) as [t o]. cbn [fst].
  rewrite <- (calls_executions (startup_lines e ++ t)),
    <- (calls_quote_requests (startup_lines e ++ t)), calls_startup.
  inversion S as [? ? P C|? ? P Q C|? ? ? P Q C|? params quote ? ? P Q G X C F];
    subst; rewrite C, P; try rewrite Q; try reflexivity.
  exists params. repeat split; assumption || reflexivity.
Qed.

(** Claim C9.  Once the account is built from [PRIVATE_KEY], every run asks
    for the balance of exactly one address, the value of [PUBLIC_KEY],
    while every execution is signed by the client bound to that account.
    So when [PUBLIC_KEY] is not the account's address, the address whose
    balance was checked is not the address that executes. *)
Theorem checked_address_is_not_the_signer (im : imports) (w : world)
  (e : environment) (acct : Account) :
  privateKeyToAccount im ("0x" ++ interpolate (PRIVATE_KEY e))%string = inr acct ->
  balance_queries (fst (run w (main im e))) = [entry (PUBLIC_KEY e)]
  /\ (forall wc d, In (wc, d) (executions (fst (run w (main im e)))) ->
      wallet_account wc = acct)
  /\ (PUBLIC_KEY e <> Some (address acct) ->
      forall a wc d,
        In a (balance_queries (fst (run w (main im e)))) ->
        In (wc, d) (executions (fst (run w (main im e)))) ->
        a <> Str (address (wallet_account wc))).
Proof.
  intros K. rewrite main_run, K.
  pose proof (bridge_shape im w (globals_of im e acct)) as S.
  destruct (run w (bridge im (globals_of im e acct))) as [t o]. cbn [fst].
  rewrite <- (calls_executions (startup_lines e ++ t)),
    <- (calls_balance_queries (startup_lines e ++ t)), calls_startup.
  assert (B : balance_queries (network_calls t) = [entry (PUBLIC_KEY e)]
              /\ forall wc d, In (wc, d) (executions (network_calls t)) ->
                              wallet_account wc = acct).
  { inversion S as [? ? _ C|? ? _ _ C|? ? ? _ _ C|? ? ? ? ? _ _ Q X C F]; subst;
      rewrite C; (split; [reflexivity|]); cbn [executions flat_map app In];
      intros wc d Hin; try contradiction.
    destruct Hin as [E|[]]. injection E as <- _. reflexivity. }
  destruct B as [B1 B2]. split; [assumption|]. split; [assumption|].
  intros Hne a wc d Ha Hx. rewrite B1 in Ha. destruct Ha as [<-|[]].
  rewrite (B2 wc d Hx). intros E. apply Hne.
  destruct (PUBLIC_KEY e); [injection E as ->; reflexivity|discriminate E].
Qed.

(** ** Instances on the sample data *)

Lemma half_cent_balance_aborts :
  run (sample_world (5 * 10 ^ 15) sample_chains None)
      (bridge sample_imports sample_globals)
  = ([ConsoleLog [Str "Validating balance of wallet with pub key: ";
                  Str "0x00000000000000000000000000000000000000aa"];
      GetBalance (publicClient sample_globals)
        (Str "0x00000000000000000000000000000000000000aa");
      ConsoleLog [Str "wei balance: "; Big 5000000000000000];
      ConsoleLog [Str "Balance in ETH:"; Str "0.005"];
      ConsoleLog [Str "Insufficient funds... Exiting early"]],
     inl InsufficientFundsError).
Proof.
  destruct (insufficient_balance_aborts sample_imports
              (sample_world (5 * 10 ^ 15) sample_chains None) sample_globals
              (5 * 10 ^ 15)) as (eth & F & R & _).
  - reflexivity.
  - split; [intros H; discriminate H|reflexivity].
  - rewrite R. vm_compute in F. injection F as <-. reflexivity.
Defined.

Lemma exact_minimum_passes :
  run (sample_world (10 ^ 16) sample_chains None) (preValidate sample_globals)
  = ([ConsoleLog [Str "Validating balance of wallet with pub key: ";
                  Str "0x00000000000000000000000000000000000000aa"];
      GetBalance (publicClient sample_globals)
        (Str "0x00000000000000000000000000000000000000aa");
      ConsoleLog [Str "wei balance: "; Big 10000000000000000];
      ConsoleLog [Str "Balance in ETH:"; Str "0.01"]],
     inr tt).
Proof.
  destruct (sufficient_balance_proceeds sample_imports
              (sample_world (10 ^ 16) sample_chains None) sample_globals
              (10 ^ 16)) as (eth & F & _ & R & _).
  - reflexivity.
  - split; [intros H; discriminate H|reflexivity].
  - rewrite R. vm_compute in F. injection F as <-. reflexivity.
Defined.

Lemma output_only_token_is_a_TypeError :
  run (sample_world (10 ^ 18) output_only_chains None) (getQuote sample_imports bridge_client)
  = ([GetSupportedChains bridge_client], inl (undefined_read "address")).
Proof.
  apply (missing_lookup_is_a_TypeError sample_imports
           (sample_world (10 ^ 18) output_only_chains None) bridge_client
           output_only_chains); reflexivity.
Defined.

Lemma sample_route_requested :
  exists rest o,
    run (sample_world (10 ^ 18) sample_chains None) (getQuote sample_imports bridge_client)
    = (GetSupportedChains bridge_client
       :: ConsoleLog [Str "Requesting quote from Across..."]
       :: GetQuote bridge_client
            {| route := {| originChainId := 11155111;
                           destinationChainId := 421614;
                           inputToken := "0xE";
                           outputToken := "0xC" |};
               inputAmount := 2 * 10 ^ 14 |}
       :: rest, o)
    /\ quote_requests rest = []
    /\ Text.parseEther "0.0002" = inr (2 * 10 ^ 14).
Proof.
  apply (quote_request_route sample_imports
           (sample_world (10 ^ 18) sample_chains None) bridge_client
           sample_chains
           (nth 0 sample_chains (Build_AcrossChain 0 [] []))
           (nth 1 sample_chains (Build_AcrossChain 0 [] []))
           {| token_address := "0xE"; symbol := "ETH" |}
           {| token_address := "0xC"; symbol := "WETH" |}); reflexivity.
Defined.

Lemma failed_deposit_only_logged :
  run (sample_world (10 ^ 18) sample_chains None)
      (onProgressCallback sample_imports (sample_progress "deposit" "txError"))
  = ([ConsoleLog [Str "Step 'deposit' failed with status: txError"]], inr tt).
Proof.
  apply (failed_step_only_logged sample_imports
           (sample_world (10 ^ 18) sample_chains None)
           (sample_progress "deposit" "txError")).
  intros H. discriminate H.
Defined.

Lemma keyless_run_is_fatal :
  exists err,
    run (sample_world (10 ^ 18) sample_chains None)
        (main sample_imports keyless_environment)
    = (startup_lines keyless_environment, inl err)
    /\ name err = "Error"
    /\ In (ConsoleLog [Str "Loaded PK: "; Undefined])
          (startup_lines keyless_environment)
    /\ network_calls (startup_lines keyless_environment) = []
    /\ filter is_bridging (startup_lines keyless_environment) = [].
Proof.
  apply (missing_private_key_is_fatal sample_imports
           (sample_world (10 ^ 18) sample_chains None) keyless_environment).
  reflexivity.
Defined.

Lemma bigint_result_is_not_logged :
  executions (fst (run (sample_world (10 ^ 18) sample_chains None)
                       (bridge sample_imports sample_globals)))
  = [(walletClient sample_globals, sample_deposit)]
  /\ snd (run (sample_world (10 ^ 18) sample_chains None)
              (bridge sample_imports sample_globals)) = inl not_serializable
  /\ after_execution
       (fst (run (sample_world (10 ^ 18) sample_chains None)
                 (bridge sample_imports sample_globals)))
     = Some (fst (deliver (observer sample_imports
                             (sample_world (10 ^ 18) sample_chains None))
                    [sample_progress "deposit" "txError";
                     sample_progress "deposit" "txSuccess";
                     sample_progress "fill" "txSuccess"])).
Proof.
  apply (terminal_result_branches sample_imports
           (sample_world (10 ^ 18) sample_chains None) sample_globals
           (walletClient sample_globals) sample_deposit
           [sample_progress "deposit" "txError";
            sample_progress "deposit" "txSuccess";
            sample_progress "fill" "txSuccess"]
           (sample_result None)).
  - vm_compute. left. reflexivity.
  - reflexivity.
  - reflexivity.
Defined.

Lemma sample_quote_executed_once :
  exists params,
    across_getQuote (sample_world (10 ^ 18) sample_chains None) bridge_client
      params
    = inr (sample_quote
             {| route := {| originChainId := 11155111;
                            destinationChainId := 421614;
                            inputToken := "0xE";
                            outputToken := "0xC" |};
                inputAmount := 2 * 10 ^ 14 |})
    /\ network_calls
         (fst (run (sample_world (10 ^ 18) sample_chains None)
                   (main sample_imports sample_environment)))
       = [GetBalance (publicClient sample_globals)
            (Str "0x00000000000000000000000000000000000000aa");
          GetSupportedChains bridge_client;
          GetQuote bridge_client params;
          ExecuteQuote bridge_client (walletClient sample_globals)
            sample_deposit]
    /\ quote_requests
         (fst (run (sample_world (10 ^ 18) sample_chains None)
                   (main sample_imports sample_environment)))
       = [params]
    /\ executions
         (fst (run (sample_world (10 ^ 18) sample_chains None)
                   (main sample_imports sample_environment)))
       = [(walletClient sample_globals, sample_deposit)].
Proof.
  pose proof (quote_executed_once sample_imports
                (sample_world (10 ^ 18) sample_chains None) sample_environment)
    as H.
  assert (K : privateKeyToAccount sample_imports
                ("0x" ++ interpolate (PRIVATE_KEY sample_environment))
              = inr {| address := "0x7" |}) by (vm_compute; reflexivity).
  assert (P : snd (run (sample_world (10 ^ 18) sample_chains None)
                       (preValidate
                          (globals_of sample_imports sample_environment
                             {| address := "0x7" |})))
              = inr tt) by (vm_compute; reflexivity).
  assert (Q : snd (run (sample_world (10 ^ 18) sample_chains None)
                       (getQuote sample_imports bridge_client))
              = inr (sample_quote
                       {| route := {| originChainId := 11155111;
                                      destinationChainId := 421614;
                                      inputToken := "0xE";
                                      outputToken := "0xC" |};
                          inputAmount := 2 * 10 ^ 14 |}))
    by (vm_compute; reflexivity).
  rewrite K, P, Q in H. exact H.
Defined.

Lemma sample_signer_not_checked :
  balance_queries (fst (run split_world (main sample_imports sample_environment)))
  = [Str "0x00000000000000000000000000000000000000aa"]
  /\ (forall wc d,
        In (wc, d) (executions
                      (fst (run split_world (main sample_imports sample_environment)))) ->
        wallet_account wc = {| address := "0x7" |})
  /\ (PUBLIC_KEY sample_environment <> Some "0x7" ->
      forall a wc d,
        In a (balance_queries
                (fst (run split_world (main sample_imports sample_environment)))) ->
        In (wc, d) (executions
                      (fst (run split_world (main sample_imports sample_environment)))) ->
        a <> Str (address (wallet_account wc))).
Proof.
  apply (checked_address_is_not_the_signer sample_imports split_world
           sample_environment {| address := "0x7" |}).
  reflexivity.
Defined.

Lemma sample_output_token :
  exists dt,
    find (fun x => symbol x =? destTokenSymbol)%string
         [ {| token_address := "0xC"; symbol := "WETH" |} ] = Some dt
    /\ "0xC" = token_address dt.
Proof.
  apply (output_token_from_inputTokens sample_imports
           (sample_world (10 ^ 18) sample_chains None) bridge_client sample_chains
           {| chainId := 421614;
              inputTokens := [ {| token_address := "0xC"; symbol := "WETH" |} ];
              outputTokens := [ {| token_address := "0xD"; symbol := "WETH" |} ] |}
           ltac:(reflexivity) ltac:(reflexivity)
           {| route := {| originChainId := 11155111;
                          destinationChainId := 421614;
                          inputToken := "0xE";
                          outputToken := "0xC" |};
              inputAmount := 2 * 10 ^ 14 |}).
  vm_compute. left. reflexivity.
Defined.

Example precheck_reads_another_account :
  rpc_getBalance split_world (publicClient sample_globals) (Str "0x7") = inr 0
  /\ executions (fst (run split_world (main sample_imports sample_environment)))
     <> [].
Proof. split; [reflexivity|]. vm_compute. discriminate. Qed.

Example output_only_token_not_used :
  quote_requests
    (fst (run (sample_world (10 ^ 18) output_only_chains None)
              (main sample_imports sample_environment))) = [].
Proof. vm_compute. reflexivity. Qed.

(** ** Further properties of the script *)

(** Property X1.  For a balance that [formatEther] can print, the precheck
    fails with [InsufficientFundsError] exactly when the balance in wei is
    below [10^16], and returns otherwise: rounding the decimal text to a
    binary64 number never puts a balance on the wrong side of [0.01]. *)
Theorem precheck_decides_on_wei (w : world) (g : globals) (wei : Z) :
  rpc_getBalance w (publicClient g) (getPubKey (env g)) = inr wei ->
  - 2 ^ 511 <= wei < 2 ^ 511 ->
  snd (run w (preValidate g))
  = if (wei <? 10 ^ 16)%Z then inl InsufficientFundsError else inr tt.
Proof.
  intros Hb Hw. destruct (balance_check wei Hw) as (eth & Hf & Hlt).
  rewrite preValidate_run. cbv zeta. rewrite Hb, Hf, Hlt.
  destruct (wei <? 10 ^ 16)%Z; reflexivity.
Qed.

(** Property X2.  When the balance query itself fails, [bridge] ends with
    that error right after the query: one line printed, one call made,
    nothing of the bridging SDK touched. *)
Theorem balance_query_failure_is_fatal (im : imports) (w : world) (g : globals)
  (e : exn) :
  rpc_getBalance w (publicClient g) (getPubKey (env g)) = inl e ->
  run w (bridge im g)
  = ([ConsoleLog [Str "Validating balance of wallet with pub key: ";
                  getPubKey (env g)];
      GetBalance (publicClient g) (getPubKey (env g))],
     inl e).
Proof.
  intros Hb. unfold bridge. rewrite run_bind, preValidate_run. cbv zeta.
  rewrite Hb. reflexivity.
Qed.

(** Property X3.  Whatever the world answers, a run of [bridge] that makes
    any call to the bridging SDK (building the client included) has been
    told a balance of at least [10^16] wei. *)
Theorem bridging_needs_the_minimum (im : imports) (w : world) (g : globals) :
  filter is_bridging (fst (run w (bridge im g))) <> [] ->
  exists wei,
    rpc_getBalance w (publicClient g) (getPubKey (env g)) = inr wei
    /\ 10 ^ 16 <= wei < 2 ^ 511.
Proof.
  unfold bridge. rewrite run_bind, preValidate_run. cbv zeta.
  destruct (rpc_getBalance w _ _) as [e|wei] eqn:Hb;
    [intros H; exfalso; apply H; reflexivity|].
  destruct (Z_lt_le_dec wei (- 2 ^ 511)) as [Lo|Lo].
  { rewrite formatEther_overflow by lia.
    intros H; exfalso; apply H; reflexivity. }
  destruct (Z_lt_le_dec wei (2 ^ 511)) as [Hi|Hi].
  2:{ rewrite formatEther_overflow by lia.
      intros H; exfalso; apply H; reflexivity. }
  destruct (balance_check wei (conj Lo Hi)) as (eth & Hf & Hlt).
  rewrite Hf, Hlt. destruct (Z.ltb_spec wei (10 ^ 16)) as [L|L].
  - intros H; exfalso; apply H; reflexivity.
  - intros _. exists wei. split; [reflexivity|]. split; assumption.
Qed.

(** Property X4.  With a sufficient balance, a failure of the
    supported-chains request ends [bridge] with that error: after the
    precheck the client is built, the request is sent, and nothing else
    happens. *)
Theorem chain_list_failure_is_fatal (im : imports) (w : world) (g : globals)
  (wei : Z) (e : exn) :
  rpc_getBalance w (publicClient g) (getPubKey (env g)) = inr wei ->
  10 ^ 16 <= wei < 2 ^ 511 ->
  across_getSupportedChains w bridge_client = inl e ->
  run w (bridge im g)
  = (fst (run w (preValidate g))
     ++ [CreateAcrossClient (options bridge_client);
         GetSupportedChains bridge_client],
     inl e)
  /\ snd (run w (preValidate g)) = inr tt.
Proof.
  intros Hb Hw Hc.
  destruct (balance_check wei) as (eth & Hf & Hlt).
  { assert (10 ^ 16 < 2 ^ 511) by reflexivity. lia. }
  rewrite (proj2 (Z.ltb_ge wei (10 ^ 16)) (proj1 Hw)) in Hlt.
  assert (P : exists t, run w (preValidate g) = (t, inr tt)).
  { rewrite preValidate_run. cbv zeta. rewrite Hb, Hf, Hlt. eexists. reflexivity. }
  destruct P as [t P]. unfold bridge. rewrite run_bind, P. cbn [fst snd].
  split; [|reflexivity].
  rewrite run_bind. cbn [run]. unfold after. cbn [fst snd].
  rewrite run_bind. unfold getQuote. rewrite run_bind. cbn [run].
  unfold answered. change {| options := _ |} with bridge_client.
  rewrite Hc. reflexivity.
Qed.

(** Property X5.  When both tokens resolve and the quote request fails,
    [getQuote] ends with that error right after the request; none of the
    summary lines is printed. *)
Theorem quote_failure_is_fatal (im : imports) (w : world)
  (c : AcrossClient)
  (cs : ChainsQueryResponse) (ot dt : TokenInfo) (e : exn) :
  across_getSupportedChains w c = inr cs ->
  resolved cs = Some (ot, dt) ->
  across_getQuote w c
    {| route := {| originChainId := 11155111;
                   destinationChainId := 421614;
                   inputToken := token_address ot;
                   outputToken := token_address dt |};
       inputAmount := 2 * 10 ^ 14 |} = inl e ->
  run w (getQuote im c)
  = ([GetSupportedChains c;
      ConsoleLog [Str "Requesting quote from Across..."];
      GetQuote c {| route := {| originChainId := 11155111;
                                destinationChainId := 421614;
                                inputToken := token_address ot;
                                outputToken := token_address dt |};
                    inputAmount := 2 * 10 ^ 14 |}],
     inl e).
Proof.
  intros Hcs Hr Hq. unfold resolved, origin_entry, destination_entry, input_token in Hr.
  destruct (find _ cs) as [oc|] eqn:Hoc in Hr; [|discriminate Hr].
  destruct (find _ cs) as [dc|] eqn:Hdc in Hr; [|discriminate Hr].
  destruct (find _ (inputTokens oc)) as [ot'|] eqn:Hot in Hr; [|discriminate Hr].
  destruct (find _ (inputTokens dc)) as [dt'|] eqn:Hdt in Hr; [|discriminate Hr].
  injection Hr as -> ->. unfold getQuote.
  pose proof parseEther_amount as Hamount.
  set (amount := Text.parseEther "0.0002") in *. clearbody amount.
  assert (Hq' : across_getQuote w c
                  {| route := {| originChainId := id originChain;
                                 destinationChainId := id destinationChain;
                                 inputToken := token_address ot;
                                 outputToken := token_address dt |};
                     inputAmount := 200000000000000 |} = inl e) by exact Hq.
  clear Hq. run_known. reflexivity.
Qed.

(** Two answers to one question are one answer. *)
Ltac merge_answers :=
  repeat match goal with
         | E1 : ?x = ?a, E2 : ?x = ?b |- _ =>
             rewrite E1 in E2;
             first [discriminate E2 | injection E2 as ?; subst | clear E2]
         end.

(** Property X6.  Whenever [getQuote] returns a quote, it is the very
    answer of the service to the one request sent, and the run consists of
    the supported-chains call, the request and the five summary lines,
    whose amounts are those of that quote printed in ether and whose
    estimate is the quote's number as a template literal prints it, or
    "N/A" for a missing or falsy one. *)
Theorem getQuote_returns_the_answer (im : imports) (w : world)
  (c : AcrossClient) (t : trace)
  (q : Quote) :
  run w (getQuote im c) = (t, inr q) ->
  exists params sent received fee,
    across_getQuote w c params = inr q
    /\ Text.formatEther (deposit_inputAmount (deposit q)) = inr sent
    /\ Text.formatEther (deposit_outputAmount (deposit q)) = inr received
    /\ Text.formatEther (fees_totalRelayFee_total q) = inr fee
    /\ t = [GetSupportedChains c;
            ConsoleLog [Str "Requesting quote from Across..."];
            GetQuote c params;
            ConsoleLog [Str "=== Quote Received ==="];
            ConsoleLog [Str ("You send: " ++ sent ++ " ETH on Chain Sepolia")];
            ConsoleLog [Str ("You receive: " ++ received
                             ++ " WETH on Chain Arbitrum Sepolia")];
            ConsoleLog [Str ("Bridge fee: " ++ fee)];
            ConsoleLog [Str ("Estimated time: "
                             ++ match estimatedFillTimeSec q with
                                | Some x => if Float64.falsy x then "N/A"
                                            else Number_toString im x
                                | None => "N/A"
                                end
                             ++ " seconds")]].
Proof.
  unfold getQuote.
  repeat run_step; intros H; try discriminate H; injection H as <- <-.
  all: merge_answers.
  all: eexists _, _, _, _; repeat split; eassumption.
Qed.

(** Property X7.  An estimated fill time of 0 seconds is printed as "N/A",
    like a missing estimate; so is any other number that counts as false
    ([-0], [NaN]). *)
Theorem no_estimate_for_zero_seconds (im : imports) (w : world)
  (c : AcrossClient) (t : trace)
  (q : Quote) :
  run w (getQuote im c) = (t, inr q) ->
  estimatedFillTimeSec q = None
  \/ (exists x, estimatedFillTimeSec q = Some x /\ Float64.falsy x = true) ->
  last t (ConsoleLog []) = ConsoleLog [Str "Estimated time: N/A seconds"].
Proof.
  unfold getQuote.
  repeat run_step; intros H; try discriminate H; injection H as <- <-.
  all: intros [E|(x & E & Z)]; merge_answers.
  all: try congruence.
  all: reflexivity.
Qed.

(** Property X8.  As long as every notification is one the observer has a
    line for (a failed one, one of a known step, or one without a BigInt
    in it), the observer prints exactly one line for each notification,
    right after it, and the delivery runs to the end. *)
Theorem one_line_per_notification (im : imports) (w : world)
  (ps : list ExecutionProgress) :
  forallb printable ps = true ->
  exists lines,
    List.length lines = List.length ps
    /\ deliver (observer im w) ps = (flat_map notified (combine ps lines), inr tt).
Proof.
  induction ps as [|p ps IH].
  - intros _. exists []. split; reflexivity.
  - cbn [forallb]. intros H. apply andb_prop in H as [Hp Hps].
    destruct (IH Hps) as (lines & L & D).
    destruct (onProgressCallback_run im w p) as [[_ [args R]]|[N _]];
      [|rewrite N in Hp; discriminate Hp].
    exists (args :: lines). split; [cbn [List.length]; congruence|].
    cbn [deliver combine flat_map]. unfold observer at 1. rewrite R, D.
    reflexivity.
Qed.


(** Property X9.  The [actionSuccess] flag of a notification is never
    looked at: for a failed step or one of the three known steps, what
    the observer does is the same whatever the flag.  (A successful fill
    whose cross-chain action failed is reported like any other fill.) *)
Theorem actionSuccess_is_not_read (im : imports) (w : world)
  (p : ExecutionProgress) (flag : jsval) :
  status p <> "txSuccess" \/ In (step p) ["approve"; "deposit"; "fill"] ->
  run w (onProgressCallback im (with_actionSuccess p flag))
  = run w (onProgressCallback im p).
Proof.
  intros H. unfold onProgressCallback, with_actionSuccess.
  cbn [status step txReceipt depositId fillTxTimestamp].
  destruct (String.eqb_spec (status p) "txSuccess") as [S|S]; [|reflexivity].
  cbn [negb].
  destruct (String.eqb_spec (step p) "approve") as [A|A]; [reflexivity|].
  destruct (String.eqb_spec (step p) "deposit") as [D|D]; [reflexivity|].
  destruct (String.eqb_spec (step p) "fill") as [F|F]; [reflexivity|].
  exfalso. destruct H as [H|[H|[H|[H|[]]]]]; congruence.
Qed.

(** Property X10.  When the execution call rejects instead of resolving
    to a result, [bridge] ends with an error: that of the rejection, or
    the one the observer threw on a notification before it.  After the
    call come the lines for the notifications and nothing else, no
    terminal line. *)
Theorem rejected_execution_is_fatal (im : imports) (w : world) (g : globals)
  (wc : WalletClient) (d : Deposit) (ps : list ExecutionProgress) (e : exn) :
  In (wc, d) (executions (fst (run w (bridge im g)))) ->
  across_executeQuote w bridge_client wc d = (ps, inl e) ->
  snd (run w (bridge im g))
  = match snd (deliver (observer im w) ps) with
    | inl thrown => inl thrown
    | inr _ => inl e
    end
  /\ after_execution (fst (run w (bridge im g)))
     = Some (fst (deliver (observer im w) ps)).
Proof.
  pose proof (bridge_shape im w g) as S.
  destruct (run w (bridge im g)) as [t o]. cbn [fst snd].
  intros Hin Hex. rewrite <- (calls_executions t) in *.
  inversion S as [? ? _ C|? ? _ _ C|? ? ? _ _ C|? ? ? ? ? _ _ Q X C F]; subst;
    rewrite C in *; cbn [executions flat_map app In] in Hin;
    try contradiction.
  destruct Hin as [E|[]]. injection E as <- <-.
  rewrite X in Hex. injection Hex as -> ->.
  rewrite F. unfold conclusion.
  destruct (snd (deliver (observer im w) ps)) as [thrown|u]; cbn [fst snd];
    rewrite app_nil_r; split; reflexivity.
Qed.

Lemma length_list_ascii_of_string (s : string) :
  List.length (list_ascii_of_string s) = String.length s.
Proof. induction s as [|c s IH]; [reflexivity|]. cbn. congruence. Qed.

(** Property X12.  A private key whose text is not 64 characters long (for
    instance one written with a leading "0x", which the script adds
    itself) ends the run while the account is built: only the start-up
    lines have been printed. *)
Theorem wrong_length_key_is_fatal (im : imports) (w : world) (e : environment)
  (key : string) :
  PRIVATE_KEY e = Some key ->
  String.length key <> 64%nat ->
  exists err, run w (main im e) = (startup_lines e, inl err).
Proof.
  intros K L. rewrite main_run, K.
  unfold privateKeyToAccount. cbn [interpolate].
  change (skipn 2 (list_ascii_of_string ("0x" ++ key)))
    with (list_ascii_of_string key).
  rewrite length_list_ascii_of_string.
  destruct (Nat.eqb_spec (String.length key) 64); [contradiction|].
  eexists. reflexivity.
Qed.

(** Property X13.  In every run, whatever happens next, the third thing
    done is to print the private key as found in the environment. *)
Theorem private_key_is_printed (im : imports) (w : world) (e : environment) :
  nth_error (fst (run w (main im e))) 2
  = Some (ConsoleLog [Str "Loaded PK: "; entry (PRIVATE_KEY e)]).
Proof.
  rewrite main_run. destruct (privateKeyToAccount im _); [reflexivity|].
  destruct (run w (bridge im _)). reflexivity.
Qed.

(** Property X14.  A missing [INFURA_PROJECT_KEY] is not noticed at start:
    with a usable private key the first network call is the balance query,
    sent through the Sepolia prefix followed by the text "undefined". *)
Theorem missing_project_key_goes_unnoticed (im : imports) (w : world)
  (e : environment) (acct : Account) :
  INFURA_PROJECT_KEY e = None ->
  privateKeyToAccount im ("0x" ++ interpolate (PRIVATE_KEY e)) = inr acct ->
  hd_error (network_calls (fst (run w (main im e))))
  = Some (GetBalance {| public_chain := sepolia;
                        public_transport := infura_Sepolia im ++ "undefined" |}
            (entry (PUBLIC_KEY e))).
Proof.
  intros I K. rewrite main_run, K.
  pose proof (bridge_shape im w (globals_of im e acct)) as S.
  destruct (run w (bridge im (globals_of im e acct))) as [t o]. cbn [fst].
  rewrite calls_startup.
  assert (P : publicClient (globals_of im e acct)
              = {| public_chain := sepolia;
                   public_transport := infura_Sepolia im ++ "undefined" |}).
  { unfold globals_of, getOriginChainRpcUrl. cbn [publicClient]. rewrite I.
    reflexivity. }
  inversion S as [? ? _ C|? ? _ _ C|? ? ? _ _ C|? ? ? ? ? _ _ Q X C F]; subst;
    rewrite C, P; reflexivity.
Qed.

Lemma calls_transports (t : trace) :
  transports (network_calls t) = transports t.
Proof.
  induction t as [|e t IH]; [reflexivity|].
  destruct e; cbn [network_calls filter is_network transports flat_map app] in *;
    try assumption.
  all: f_equal; assumption.
Qed.

(** Property X15.  Every chain client a run uses, for the balance query and
    for the execution, goes through the origin chain's RPC endpoint (the
    Sepolia prefix followed by the project key): the endpoint of the
    destination chain, [getDestinationChainRpcUrl], is never used. *)
Theorem only_the_origin_endpoint_is_used (im : imports) (w : world)
  (e : environment) (url : string) :
  In url (transports (fst (run w (main im e)))) ->
  url = getOriginChainRpcUrl im e.
Proof.
  rewrite main_run.
  destruct (privateKeyToAccount im _) as [err|acct]; [intros []|].
  pose proof (bridge_shape im w (globals_of im e acct)) as S.
  destruct (run w (bridge im (globals_of im e acct))) as [t o]. cbn [fst].
  rewrite <- (calls_transports (startup_lines e ++ t)), calls_startup.
  inversion S as [? ? _ C|? ? _ _ C|? ? ? _ _ C|? ? ? ? ? _ _ Q X C F]; subst;
    rewrite C; cbn [transports flat_map app In];
    intros Hin; repeat (destruct Hin as [<-|Hin]; [reflexivity|]); contradiction.
Qed.

(** Property X11.  [bridge] returns normally only after exactly one
    execution whose notifications the observer all handled and whose call
    resolved to a result that either has an error or has no BigInt in it;
    what follows the call is then the lines for the notifications and the
    one line for that result. *)
Theorem normal_return_means_executed (im : imports) (w : world) (g : globals) :
  snd (run w (bridge im g)) = inr tt ->
  exists quote ps r,
    executions (fst (run w (bridge im g))) = [(walletClient g, deposit quote)]
    /\ across_executeQuote w bridge_client (walletClient g) (deposit quote)
       = (ps, inr r)
    /\ snd (deliver (observer im w) ps) = inr tt
    /\ (error r = None -> has_bigint (result_object r) = false)
    /\ after_execution (fst (run w (bridge im g)))
       = Some (fst (deliver (observer im w) ps)
               ++ [match error r with
                   | Some e => error_line e
                   | None => success_line im r
                   end]).
Proof.
  pose proof (bridge_shape im w g) as S.
  destruct (run w (bridge im g)) as [t o]. cbn [fst snd]. intros R.
  rewrite <- (calls_executions t).
  inversion S as [? ? _ _ _|? ? _ _ _ _|? ? ? _ _ _ _
                 |? params quote ps answer _ _ Q X C F];
    subst; try discriminate R.
  unfold conclusion in *.
  destruct (snd (deliver (observer im w) ps)) as [thrown|[]] eqn:D;
    [discriminate R|].
  destruct answer as [e|r]; [discriminate R|].
  exists quote, ps, r. rewrite C, F.
  split; [reflexivity|]. split; [exact X|]. split; [exact D|].
  destruct (error r) as [e|].
  - split; [intros N; discriminate N|reflexivity].
  - destruct (has_bigint (result_object r)); [discriminate R|].
    split; [intros _|]; reflexivity.
Qed.

(** ** Printing and reading amounts *)

Module RoundTrip.
Import Text TextFacts.

Lemma pad_decimal_spec (d : chars) (n : nat) :
  exists k, pad_decimal d n = d ++ repeat "0"%char k
            /\ (n <= List.length d + k)%nat.
Proof.
  funelim (pad_decimal d n).
  - exists 0%nat. rewrite app_nil_r. split; [reflexivity|lia].
  - destruct H as (k & E & L). exists (4 + k)%nat. split.
    + rewrite E, <- app_assoc. reflexivity.
    + rewrite length_app in L. cbn [List.length Zeros list_ascii_of_string] in L.
      lia.
Qed.

Lemma forallb_skipn {A : Type} (f : A -> bool) (n : nat) (l : list A) :
  forallb f l = true -> forallb f (skipn n l) = true.
Proof.
  revert l. induction n as [|n IH]; intros l H; [assumption|].
  destruct l as [|a l]; [reflexivity|].
  cbn [forallb] in H. apply andb_true_iff in H as [_ H]. apply IH, H.
Qed.

Lemma forallb_zeros (k : nat) :
  forallb (Ascii.eqb "0") (repeat "0"%char k) = true.
Proof. induction k; [reflexivity|assumption]. Qed.

Lemma firstn_zeros (j k : nat) :
  (j <= k)%nat -> firstn j (repeat "0"%char k) = repeat "0"%char j.
Proof.
  revert k. induction j as [|j IH]; intros k L; [reflexivity|].
  destruct k as [|k]; [lia|]. cbn [repeat firstn]. rewrite IH by lia.
  reflexivity.
Qed.

Lemma span_digits_cons_app (c : ascii) (ds rest : chars) :
  is_digit c = true -> all_digits ds ->
  match rest with x :: _ => is_digit x = false | [] => True end ->
  span_digits (c :: ds ++ rest) = (c :: ds, rest).
Proof.
  intros Dc A R. apply (span_digits_app (c :: ds) rest); [|assumption].
  constructor; assumption.
Qed.

(** Reading back digits, a point and at most 18 digits. *)
Lemma fromString_fixed (neg : bool) (W F : chars) (j : nat) :
  all_digits W -> W <> [] -> all_digits F -> F <> [] ->
  (List.length F + j = 18)%nat ->
  fromString ((if neg then ["-"%char] else []) ++ W ++ "."%char :: F) 18
  = let v := value (W ++ F) * 10 ^ Z.of_nat j in
    let v := if neg then - v else v in
    if in_range v 512 then inr v else inl overflow.
Proof.
  intros AW NW AF NF L.
  destruct (pad_decimal_spec F 18) as (k & P & Lk).
  assert (Sk : forallb (Ascii.eqb "0") (skipn 18 (F ++ repeat "0"%char k)) = true).
  { rewrite skipn_app, (skipn_all2 F) by lia. cbn [app].
    apply forallb_skipn, forallb_zeros. }
  assert (Fk : firstn 18 (F ++ repeat "0"%char k) = F ++ repeat "0"%char j).
  { rewrite firstn_app, (firstn_all2 F) by lia.
    replace (18 - List.length F)%nat with j by lia.
    rewrite firstn_zeros by lia. reflexivity. }
  assert (SF : span_digits F = (F, [])).
  { rewrite <- (app_nil_r F) at 1. apply span_digits_app; [assumption|exact Logic.I]. }
  assert (NZ : (List.length W + List.length F =? 0)%nat = false).
  { destruct F; [contradiction|]. apply Nat.eqb_neq. cbn [List.length]. lia. }
  assert (V : value (W ++ F ++ repeat "0"%char j)
              = value (W ++ F) * 10 ^ Z.of_nat j).
  { rewrite app_assoc. apply value_trailing_zeros. }
  unfold fromString. destruct neg; cbn [app].
  - cbv beta iota.
    rewrite (span_digits_app W ("."%char :: F) AW) by reflexivity.
    cbn [starts_with_point tl]. rewrite Ascii.eqb_refl, SF, NZ, P, Sk, Fk.
    destruct W as [|c W]; [contradiction|]. rewrite V. reflexivity.
  - destruct W as [|c W]; [contradiction|]. inversion AW as [|? ? Dc AW']; subst.
    pose proof (span_digits_cons_app c W ("."%char :: F) Dc AW' eq_refl) as SW.
    cbn [app List.length] in *.
    apply digit_cases in Dc. simpl in Dc.
    repeat (destruct Dc as [<-|Dc];
            [cbv beta iota; rewrite SW; cbn [starts_with_point tl];
             rewrite Ascii.eqb_refl, SF; cbn [List.length];
             rewrite NZ, P, Sk, Fk; cbn [app]; rewrite V; reflexivity|]).
    contradiction.
Qed.

(** Property X16.  Reading back with [parseEther] what [formatEther] prints
    gives the amount in wei again, for every amount [formatEther]
    accepts. *)
Theorem parseEther_formatEther (wei : Z) :
  - 2 ^ 511 <= wei < 2 ^ 511 ->
  exists ether, formatEther wei = inr ether /\ parseEther ether = inr wei.
Proof.
  intros R. pose proof (proj2 (in_range_512 wei) R) as IR.
  unfold formatEther, formatUnits. rewrite IR.
  eexists. split; [reflexivity|].
  unfold parseEther, parseUnits. rewrite list_ascii_of_string_of_list_ascii.
  destruct (Z_lt_le_dec wei 0) as [Neg|Pos].
  - rewrite toString_neg by (lia || discriminate).
    destruct (toString_nonneg (- wei) ltac:(lia))
      as (W & F & j & E & AW & NW & AF & NF & L & V).
    rewrite E. pose proof (fromString_fixed true W F j AW NW AF NF L) as N.
    cbn [app] in N. rewrite N. cbv zeta. rewrite V.
    replace (- - wei) with wei by lia. rewrite IR. reflexivity.
  - destruct (toString_nonneg wei Pos)
      as (W & F & j & E & AW & NW & AF & NF & L & V).
    rewrite E. pose proof (fromString_fixed false W F j AW NW AF NF L) as N.
    cbn [app] in N. rewrite N. cbv zeta. rewrite V, IR. reflexivity.
Qed.

Lemma minimum_round_trip :
  exists ether,
    formatEther (10 ^ 16) = inr ether /\ parseEther ether = inr (10 ^ 16).
Proof.
  apply (parseEther_formatEther (10 ^ 16)).
  split; [vm_compute; discriminate|vm_compute; reflexivity].
Defined.

End RoundTrip.

(** ** Instances of the further properties *)

Lemma minimum_minus_one_wei_fails :
  snd (run (sample_world (10 ^ 16 - 1) sample_chains None)
           (preValidate sample_globals))
  = inl InsufficientFundsError.
Proof.
  apply (precheck_decides_on_wei
           (sample_world (10 ^ 16 - 1) sample_chains None) sample_globals
           (10 ^ 16 - 1)).
  - reflexivity.
  - split; [vm_compute; discriminate|vm_compute; reflexivity].
Defined.

Lemma offline_run_stops_at_the_balance :
  run offline_world (bridge sample_imports sample_globals)
  = ([ConsoleLog [Str "Validating balance of wallet with pub key: ";
                  getPubKey (env sample_globals)];
      GetBalance (publicClient sample_globals) (getPubKey (env sample_globals))],
     inl unreachable).
Proof.
  apply (balance_query_failure_is_fatal sample_imports offline_world
           sample_globals unreachable).
  reflexivity.
Defined.

Lemma sample_bridging_had_the_minimum :
  exists wei,
    rpc_getBalance (sample_world (10 ^ 18) sample_chains None)
      (publicClient sample_globals) (getPubKey (env sample_globals)) = inr wei
    /\ 10 ^ 16 <= wei < 2 ^ 511.
Proof.
  apply (bridging_needs_the_minimum sample_imports
           (sample_world (10 ^ 18) sample_chains None) sample_globals).
  vm_compute. discriminate.
Defined.

Lemma chainless_run_stops_at_the_chain_list :
  snd (run chainless_world (bridge sample_imports sample_globals))
  = inl unreachable.
Proof.
  destruct (chain_list_failure_is_fatal sample_imports chainless_world
              sample_globals (10 ^ 18) unreachable) as [R _].
  - reflexivity.
  - split; [vm_compute; discriminate|vm_compute; reflexivity].
  - reflexivity.
  - rewrite R. reflexivity.
Defined.

Lemma quoteless_run_stops_at_the_quote :
  run quoteless_world (getQuote sample_imports bridge_client)
  = ([GetSupportedChains bridge_client;
      ConsoleLog [Str "Requesting quote from Across..."];
      GetQuote bridge_client
        {| route := {| originChainId := 11155111;
                       destinationChainId := 421614;
                       inputToken := "0xE";
                       outputToken := "0xC" |};
           inputAmount := 2 * 10 ^ 14 |}],
     inl unreachable).
Proof.
  apply (quote_failure_is_fatal sample_imports quoteless_world bridge_client sample_chains
           {| token_address := "0xE"; symbol := "ETH" |}
           {| token_address := "0xC"; symbol := "WETH" |} unreachable);
    reflexivity.
Defined.

Lemma sample_quote_is_the_answer :
  exists params sent received fee,
    across_getQuote (sample_world (10 ^ 18) sample_chains None) bridge_client params
    = inr (sample_quote
             {| route := {| originChainId := 11155111;
                            destinationChainId := 421614;
                            inputToken := "0xE";
                            outputToken := "0xC" |};
                inputAmount := 2 * 10 ^ 14 |})
    /\ sent = "0.0002" /\ received = "0.000199999999999"
    /\ fee = "0.000000000000001".
Proof.
  destruct (getQuote_returns_the_answer sample_imports
              (sample_world (10 ^ 18) sample_chains None) bridge_client
              (fst (run (sample_world (10 ^ 18) sample_chains None)
                        (getQuote sample_imports bridge_client)))
              (sample_quote
                 {| route := {| originChainId := 11155111;
                                destinationChainId := 421614;
                                inputToken := "0xE";
                                outputToken := "0xC" |};
                    inputAmount := 2 * 10 ^ 14 |}))
    as (params & sent & received & fee & Q & S & R & F & _).
  - vm_compute. reflexivity.
  - exists params, sent, received, fee. split; [exact Q|].
    vm_compute in S, R, F.
    injection S as <-. injection R as <-. injection F as <-.
    repeat split.
Defined.

Lemma instant_quote_has_no_estimate :
  last (fst (run instant_world (getQuote sample_imports bridge_client))) (ConsoleLog [])
  = ConsoleLog [Str "Estimated time: N/A seconds"].
Proof.
  apply (no_estimate_for_zero_seconds sample_imports instant_world bridge_client
           (fst (run instant_world (getQuote sample_imports bridge_client)))
           {| deposit :=
                deposit (sample_quote
                           {| route := {| originChainId := 11155111;
                                          destinationChainId := 421614;
                                          inputToken := "0xE";
                                          outputToken := "0xC" |};
                              inputAmount := 2 * 10 ^ 14 |});
              fees_totalRelayFee_total := 1000;
              estimatedFillTimeSec := Some (Float64.Fin false 0 0) |}).
  - vm_compute. reflexivity.
  - right. eexists. split; reflexivity.
Defined.

Lemma failed_action_fill_reads_the_same :
  run (sample_world (10 ^ 18) sample_chains None)
      (onProgressCallback sample_imports
         (with_actionSuccess (sample_progress "fill" "txSuccess") (Boolean false)))
  = run (sample_world (10 ^ 18) sample_chains None)
        (onProgressCallback sample_imports (sample_progress "fill" "txSuccess")).
Proof.
  apply (actionSuccess_is_not_read sample_imports
           (sample_world (10 ^ 18) sample_chains None)
           (sample_progress "fill" "txSuccess") (Boolean false)).
  right. cbn. tauto.
Defined.

Lemma three_notifications_three_lines :
  exists lines,
    List.length lines = 3%nat
    /\ deliver (observer sample_imports (sample_world (10 ^ 18) sample_chains None))
         [sample_progress "deposit" "txError";
          sample_progress "deposit" "txSuccess";
          sample_progress "fill" "txSuccess"]
       = (flat_map notified
            (combine [sample_progress "deposit" "txError";
                      sample_progress "deposit" "txSuccess";
                      sample_progress "fill" "txSuccess"] lines),
          inr tt).
Proof.
  apply (one_line_per_notification sample_imports
           (sample_world (10 ^ 18) sample_chains None)
           [sample_progress "deposit" "txError";
            sample_progress "deposit" "txSuccess";
            sample_progress "fill" "txSuccess"]).
  reflexivity.
Defined.


Lemma rejecting_run_ends_with_the_rejection :
  snd (run rejecting_world (bridge sample_imports sample_globals)) = inl reverted
  /\ after_execution (fst (run rejecting_world (bridge sample_imports sample_globals)))
     = Some (fst (deliver (observer sample_imports rejecting_world)
                    [sample_progress "deposit" "txSuccess"])).
Proof.
  apply (rejected_execution_is_fatal sample_imports rejecting_world sample_globals
           (walletClient sample_globals) sample_deposit
           [sample_progress "deposit" "txSuccess"] reverted).
  - vm_compute. left. reflexivity.
  - reflexivity.
Defined.

Lemma plain_return_had_an_execution :
  exists quote ps r,
    executions (fst (run (silent_world plain_result)
                         (bridge sample_imports sample_globals)))
    = [(walletClient sample_globals, deposit quote)]
    /\ across_executeQuote (silent_world plain_result)
         bridge_client (walletClient sample_globals) (deposit quote)
       = (ps, inr r)
    /\ snd (deliver (observer sample_imports (silent_world plain_result)) ps)
       = inr tt
    /\ (error r = None -> has_bigint (result_object r) = false)
    /\ after_execution (fst (run (silent_world plain_result)
                                 (bridge sample_imports sample_globals)))
       = Some (fst (deliver (observer sample_imports (silent_world plain_result)) ps)
               ++ [match error r with
                   | Some e => error_line e
                   | None => success_line sample_imports r
                   end]).
Proof.
  apply (normal_return_means_executed sample_imports
           (silent_world plain_result) sample_globals).
  vm_compute. reflexivity.
Defined.

Lemma prefixed_key_is_fatal :
  exists err,
    run (sample_world (10 ^ 18) sample_chains None)
        (main sample_imports prefixed_environment)
    = (startup_lines prefixed_environment, inl err).
Proof.
  apply (wrong_length_key_is_fatal sample_imports
           (sample_world (10 ^ 18) sample_chains None) prefixed_environment
           "0x0000000000000000000000000000000000000000000000000000000000000007").
  - reflexivity.
  - intros H. discriminate H.
Defined.

Lemma projectless_run_asks_an_undefined_url :
  hd_error (network_calls
              (fst (run (sample_world (10 ^ 18) sample_chains None)
                        (main sample_imports projectless_environment))))
  = Some (GetBalance
            {| public_chain := sepolia;
               public_transport := "https://sepolia.infura.io/v3/undefined" |}
            (Str "0x00000000000000000000000000000000000000aa")).
Proof.
  apply (missing_project_key_goes_unnoticed sample_imports
           (sample_world (10 ^ 18) sample_chains None) projectless_environment
           {| address := "0x7" |}); reflexivity.
Defined.

Lemma sample_run_uses_the_origin_endpoint :
  "https://sepolia.infura.io/v3/project"
  = getOriginChainRpcUrl sample_imports sample_environment.
Proof.
  apply (only_the_origin_endpoint_is_used sample_imports
           (sample_world (10 ^ 18) sample_chains None) sample_environment
           "https://sepolia.infura.io/v3/project").
  vm_compute. left. reflexivity.
Defined.
